(** * go-ovmgmt: a shallow embedding of the event engine and its proofs

    The Go package [ovmgmt] is embedded function by function: the event
    types and the event factory, the multi-line event scanner of
    [MgmtClient], the command channel, the 'status 3' snapshot parser with
    its client and route rows, and the periodic status generator.

    Conventions:
    - Go strings are byte strings: [string] of the Standard Library.
    - [int64] values are [Z]; the range checks of [strconv] are written out.
    - A computation that can hit a Go run-time panic (index out of range)
      returns [option]; [None] is the panic.
    - A Go [error] is the inductive [error]; a nil error is [None]. *)

From Stdlib Require Import ZArith String Ascii DecimalString DecimalPos.
From stdpp Require Import base list option gmap strings.

Local Open Scope string_scope.
Set Warnings "-register-all".

(** ** The Go standard library functions the package calls *)

Module Go.

(** *** package strings (separators are never empty in this package) *)

(** strings.Index(s, sep): [None] stands for -1. *)
Definition Index (s sep : string) : option nat := String.index 0 sep s.

(** strings.HasPrefix(s, prefix) *)
Definition HasPrefix (s prefix : string) : bool := String.prefix prefix s.

(** s[:i] and s[i:]; every use in the package takes [i] from a successful
    [Index] or [HasPrefix], so the slice is in range. *)
Definition slice_to (s : string) (i : nat) : string := String.substring 0 i s.
Definition slice_from (s : string) (i : nat) : string :=
  String.substring i (String.length s - i) s.

(** genSplit(s, sep, 0, n) for n >= 1: split at the first n-1 separators. *)
Fixpoint genSplit (s sep : string) (n : nat) : list string :=
  match n with
  | O | S O => [s]
  | S n' =>
      match Index s sep with
      | None => [s]
      | Some m => slice_to s m :: genSplit (slice_from s (m + String.length sep)) sep n'
      end
  end.

(** strings.SplitN(s, sep, n): nil for n = 0, all pieces for n < 0 (at most
    len(s)+1 of them). *)
Definition SplitN (s sep : string) (n : Z) : list string :=
  if (n =? 0)%Z then []
  else if (n <? 0)%Z then genSplit s sep (S (String.length s))
  else genSplit s sep (Z.to_nat n).

(** strings.Split(s, sep) *)
Definition Split (s sep : string) : list string := SplitN s sep (-1).

(** strings.Join(elems, sep) *)
Fixpoint Join (l : list string) (sep : string) : string :=
  match l with
  | [] => ""
  | [x] => x
  | x :: r => x ++ sep ++ Join r sep
  end.

(** *** package strconv and errors *)

Inductive NumErrKind := ErrSyntax | ErrRange.

(** The errors the package produces or passes on. *)
Inductive error :=
  | NumError (Func Num : string) (Err : NumErrKind)  (** *strconv.NumError *)
  | OVpnError (msg : string)                         (** *ovmgmt.OVpnError *)
  | ErrorString (msg : string)                       (** errors.New, fmt.Errorf *)
  | AddrError (Err Addr : string).                   (** *net.AddrError *)

Definition is_digit (c : ascii) : bool :=
  (48 <=? nat_of_ascii c)%nat && (nat_of_ascii c <=? 57)%nat.
Definition digit_val (c : ascii) : Z := Z.of_nat (nat_of_ascii c - 48).

Definition maxUint64 : Z := (2 ^ 64 - 1)%Z.

(** The digit loop of strconv.ParseUint(s, 10, 64). *)
Fixpoint parseUintLoop (s : string) (n : Z) : Z * option NumErrKind :=
  match s with
  | EmptyString => (n, None)
  | String c rest =>
      if negb (is_digit c) then (0%Z, Some ErrSyntax)
      else if (n >=? maxUint64 / 10 + 1)%Z then (maxUint64, Some ErrRange)
      else
        let n1 := (n * 10 + digit_val c)%Z in
        if (n1 >? maxUint64)%Z then (maxUint64, Some ErrRange)
        else parseUintLoop rest n1
  end.

(** strconv.ParseUint(s, 10, 64), without the error's Func and Num. *)
Definition ParseUint10 (s : string) : Z * option NumErrKind :=
  if String.eqb s "" then (0%Z, Some ErrSyntax) else parseUintLoop s 0.

(** strconv.ParseInt(s0, 10, 64), reporting errors under the name [fn]. *)
Definition parseIntAs (fn s0 : string) : Z * option error :=
  if String.eqb s0 "" then (0%Z, Some (NumError fn s0 ErrSyntax)) else
  let '(neg, s) :=
    match s0 with
    | String c r =>
        if Ascii.eqb c "+"%char then (false, r)
        else if Ascii.eqb c "-"%char then (true, r)
        else (false, s0)
    | EmptyString => (false, s0)
    end in
  let '(un, e) := ParseUint10 s in
  match e with
  | Some ErrSyntax => (0%Z, Some (NumError fn s0 ErrSyntax))
  | _ =>
      let cutoff := (2 ^ 63)%Z in
      if negb neg && (un >=? cutoff)%Z then ((cutoff - 1)%Z, Some (NumError fn s0 ErrRange))
      else if neg && (un >? cutoff)%Z then ((- cutoff)%Z, Some (NumError fn s0 ErrRange))
      else ((if neg then - un else un)%Z, None)
  end.

(** strconv.ParseInt(s, 10, 64) *)
Definition ParseInt (s : string) : Z * option error := parseIntAs "ParseInt" s.

(** strconv.Atoi(s): ParseInt(s, 10, 0) on a 64-bit target, errors renamed. *)
Definition Atoi (s : string) : Z * option error := parseIntAs "Atoi" s.

(** strconv.ParseBool(str) *)
Definition ParseBool (str : string) : bool * option error :=
  if existsb (String.eqb str) ["1"; "t"; "T"; "TRUE"; "true"; "True"] then (true, None)
  else if existsb (String.eqb str) ["0"; "f"; "F"; "FALSE"; "false"; "False"] then (false, None)
  else (false, Some (NumError "ParseBool" str ErrSyntax)).

(** strconv.Itoa(i) *)
Definition Itoa (i : Z) : string := NilEmpty.string_of_int (Z.to_int i).

(** *** package net: ParseIP and SplitHostPort (the byte-level parser of
    the net package: IPv4 dotted quads without leading zeros, IPv6 with at
    most one "::" and an optional trailing IPv4 part) *)

(** A net.IP in its 16-byte form; a nil net.IP is [None] where it occurs. *)
Definition IP := list Z.

Definition big : Z := 16777215%Z.

Fixpoint dtoi_go (s : string) (n : Z) (i : nat) : Z * nat * bool :=
  match s with
  | String c r =>
      if is_digit c then
        let n' := (n * 10 + digit_val c)%Z in
        if (n' >=? big)%Z then (big, i, false) else dtoi_go r n' (S i)
      else (n, i, true)
  | EmptyString => (n, i, true)
  end.

(** dtoi(s): decimal to integer; number, characters consumed, success. *)
Definition dtoi (s : string) : Z * nat * bool :=
  let '(n, i, ok) := dtoi_go s 0 0 in
  if ok then (if Nat.eqb i 0 then (0%Z, 0, false) else (n, i, true)) else (n, i, false).

Definition hex_val (c : ascii) : option Z :=
  let k := nat_of_ascii c in
  if (48 <=? k)%nat && (k <=? 57)%nat then Some (Z.of_nat (k - 48))
  else if (97 <=? k)%nat && (k <=? 102)%nat then Some (Z.of_nat (k - 87))
  else if (65 <=? k)%nat && (k <=? 70)%nat then Some (Z.of_nat (k - 55))
  else None.

Fixpoint xtoi_go (s : string) (n : Z) (i : nat) : Z * nat * bool :=
  match s with
  | String c r =>
      match hex_val c with
      | Some d =>
          let n' := (n * 16 + d)%Z in
          if (n' >=? big)%Z then (0%Z, i, false) else xtoi_go r n' (S i)
      | None => (n, i, true)
      end
  | EmptyString => (n, i, true)
  end.

(** xtoi(s): hexadecimal to integer. *)
Definition xtoi (s : string) : Z * nat * bool :=
  let '(n, i, ok) := xtoi_go s 0 0 in
  if ok then (if Nat.eqb i 0 then (0%Z, 0, false) else (n, i, true)) else (n, i, false).

Definition first_char_is (s : string) (c : ascii) : bool :=
  match s with String d _ => Ascii.eqb c d | EmptyString => false end.

Definition v4InV6Prefix : list Z := [0; 0; 0; 0; 0; 0; 0; 0; 0; 0; 255; 255]%Z.

(** The loop of parseIPv4 over the four octets [i = 0..3]. *)
Fixpoint parseIPv4_go (s : string) (i : nat) (fuel : nat) (acc : list Z) : option (list Z) :=
  match fuel with
  | O => if String.eqb s "" then Some acc else None
  | S f =>
      if String.eqb s "" then None else
      s1 ← (if Nat.ltb 0 i then
              match s with
              | String c r => if Ascii.eqb c "."%char then Some r else None
              | EmptyString => None
              end
            else Some s);
      let '(n, c, ok) := dtoi s1 in
      if negb ok || (n >? 255)%Z then None
      else if Nat.ltb 1 c && first_char_is s1 "0"%char then None
      else parseIPv4_go (slice_from s1 c) (S i) f (acc ++ [n])%list
  end.

(** parseIPv4(s): the 16-byte IPv4-in-IPv6 form. *)
Definition parseIPv4 (s : string) : option IP :=
  p ← parseIPv4_go s 0 4 [];
  Some (v4InV6Prefix ++ p)%list.

(** The loop of parseIPv6: [acc] holds the [i = length acc] bytes parsed so
    far, [ellipsis] the position of "::"; returns the rest of [s]. *)
Fixpoint parseIPv6_go (s : string) (acc : list Z) (ellipsis : option nat) (fuel : nat)
  : option (string * list Z * option nat) :=
  match fuel with
  | O => Some (s, acc, ellipsis)
  | S f =>
      let i := length acc in
      if Nat.leb 16 i then Some (s, acc, ellipsis) else
      let '(n, c, ok) := xtoi s in
      if negb ok || (n >? 65535)%Z then None
      else if Nat.ltb c (String.length s) && first_char_is (slice_from s c) "."%char then
        (* trailing IPv4 part *)
        if bool_decide (ellipsis = None) && negb (Nat.eqb i 12) then None
        else if Nat.ltb 16 (i + 4) then None
        else
          ip4 ← parseIPv4 s;
          Some ("", (acc ++ drop 12 ip4)%list, ellipsis)
      else
        let acc' := (acc ++ [Z.shiftr n 8; Z.land n 255])%list in
        let s' := slice_from s c in
        if String.eqb s' "" then Some (s', acc', ellipsis) else
        if negb (first_char_is s' ":"%char) || Nat.eqb (String.length s') 1 then None else
        let s'' := slice_from s' 1 in
        if first_char_is s'' ":"%char then
          match ellipsis with
          | Some _ => None
          | None =>
              let s3 := slice_from s'' 1 in
              if String.eqb s3 "" then Some (s3, acc', Some (length acc'))
              else parseIPv6_go s3 acc' (Some (length acc')) f
          end
        else parseIPv6_go s'' acc' ellipsis f
  end.

(** parseIPv6(s) *)
Definition parseIPv6 (s0 : string) : option IP :=
  let '(s, ellipsis, early) :=
    if Nat.leb 2 (String.length s0) && String.prefix "::" s0
    then (slice_from s0 2, Some 0, String.eqb (slice_from s0 2) "")
    else (s0, None, false) in
  if early then Some (replicate 16 0%Z) else
  '(s', acc, ell) ← parseIPv6_go s [] ellipsis 16;
  if negb (String.eqb s' "") then None
  else if Nat.ltb (length acc) 16 then
    match ell with
    | None => None
    | Some e => Some (take e acc ++ replicate (16 - length acc) 0%Z ++ drop e acc)%list
    end
  else match ell with Some _ => None | None => Some acc end.

Fixpoint ParseIP_scan (s0 s : string) : option IP :=
  match s with
  | EmptyString => None
  | String c r =>
      if Ascii.eqb c "."%char then parseIPv4 s0
      else if Ascii.eqb c ":"%char then parseIPv6 s0
      else ParseIP_scan s0 r
  end.

(** net.ParseIP(s) *)
Definition ParseIP (s : string) : option IP := ParseIP_scan s s.

Fixpoint LastIndexByte (s : string) (c : ascii) : option nat :=
  match s with
  | EmptyString => None
  | String d r =>
      match LastIndexByte r c with
      | Some k => Some (S k)
      | None => if Ascii.eqb c d then Some 0 else None
      end
  end.

Definition IndexByte (s : string) (c : ascii) : option nat := Index s (String c "").

(** net.SplitHostPort(hostport) *)
Definition SplitHostPort (hostport : string) : string * string * option error :=
  let addrErr why := ("", "", Some (AddrError why hostport)) in
  match LastIndexByte hostport ":"%char with
  | None => addrErr "missing port in address"
  | Some i =>
      let hk :=
        if first_char_is hostport "["%char then
          match IndexByte hostport "]"%char with
          | None => inr "missing ']' in address"
          | Some end_ =>
              if Nat.eqb (end_ + 1) (String.length hostport) then inr "missing port in address"
              else if Nat.eqb (end_ + 1) i then
                inl (String.substring 1 (end_ - 1) hostport, 1, end_ + 1)
              else if first_char_is (slice_from hostport (end_ + 1)) ":"%char
              then inr "too many colons in address"
              else inr "missing port in address"
          end
        else
          let host := slice_to hostport i in
          match IndexByte host ":"%char with
          | Some _ => inr "too many colons in address"
          | None => inl (host, 0, 0)
          end in
      match hk with
      | inr why => addrErr why
      | inl (host, j, k) =>
          if bool_decide (IndexByte (slice_from hostport j) "["%char <> None)
          then addrErr "unexpected '[' in address"
          else if bool_decide (IndexByte (slice_from hostport k) "]"%char <> None)
          then addrErr "unexpected ']' in address"
          else (host, slice_from hostport (i + 1), None)
      end
  end.

End Go.
Import Go.

Example Itoa_neg : Itoa (-15) = "-15". Proof. reflexivity. Qed.
Example ParseInt_ok : ParseInt "-123" = ((-123)%Z, None). Proof. reflexivity. Qed.
Example ParseInt_syntax : ParseInt "2,3" = (0%Z, Some (NumError "ParseInt" "2,3" ErrSyntax)).
Proof. reflexivity. Qed.
Example ParseInt_range : ParseInt "9223372036854775808" =
  ((2^63 - 1)%Z, Some (NumError "ParseInt" "9223372036854775808" ErrRange)).
Proof. vm_compute. reflexivity. Qed.
Example SplitN_ex : SplitN "1,2,3" "," 2 = ["1"; "2,3"]. Proof. reflexivity. Qed.
Example Split_ex : Split "a	b		c" "	" = ["a"; "b"; ""; "c"]. Proof. reflexivity. Qed.
Example ParseIP_v4 : ParseIP "10.8.0.2" = Some (v4InV6Prefix ++ [10; 8; 0; 2]%Z)%list.
Proof. reflexivity. Qed.
Example ParseIP_bad : ParseIP "garbage" = None. Proof. reflexivity. Qed.
Example ParseIP_lead0 : ParseIP "10.08.0.2" = None. Proof. reflexivity. Qed.
Example ParseIP_v6a : ParseIP "::" = Some (replicate 16 0%Z). Proof. reflexivity. Qed.
Example ParseIP_v6b : ParseIP "fe80::1" = Some [254; 128; 0;0;0;0;0;0;0;0;0;0;0;0; 0; 1]%Z.
Proof. reflexivity. Qed.
Example ParseIP_v6c : ParseIP "::ffff:1.2.3.4" = Some (v4InV6Prefix ++ [1;2;3;4]%Z)%list.
Proof. reflexivity. Qed.
Example ParseIP_v6d : ParseIP "1:2:3:4:5:6:7:8" = Some [0;1;0;2;0;3;0;4;0;5;0;6;0;7;0;8]%Z.
Proof. reflexivity. Qed.
Example ParseIP_v6e : ParseIP "1::2::3" = None. Proof. reflexivity. Qed.
Example ParseIP_v6f : ParseIP "1:2:3:4:5:6:7:8::" = None. Proof. reflexivity. Qed.
Example SHP1 : SplitHostPort "1.2.3.4:1194" = ("1.2.3.4", "1194", None). Proof. reflexivity. Qed.
Example SHP2 : SplitHostPort "[::1]:80" = ("::1", "80", None). Proof. reflexivity. Qed.
Example SHP3 : SplitHostPort "a:b:c" = ("", "", Some (AddrError "too many colons in address" "a:b:c")). Proof. reflexivity. Qed.
Example SHP4 : SplitHostPort "" = ("", "", Some (AddrError "missing port in address" "")). Proof. reflexivity. Qed.

(** ** ovmgmt_common.go *)

(** net.IP values that may be nil. *)
Abbreviation netIP := (option IP).

Record IPAddrPort := { IPAddrPort_IP : netIP; Port : Z }.

Definition ParseIPAddr (s : string) : netIP * option error :=
  match ParseIP s with
  | None => (None, Some (ErrorString ("can't parse ip from " ++ s)))
  | Some ip => (Some ip, None)
  end.

(** ParseIPAddrPort returns a nil pointer with the error. *)
Definition ParseIPAddrPort (s : string) : option IPAddrPort * option error :=
  let '(host, sPort, err) := SplitHostPort s in
  match err with
  | Some e => (None, Some e)
  | None =>
      let '(ip, err) := ParseIPAddr host in
      match err with
      | Some e => (None, Some e)
      | None =>
          let '(port, err) := Atoi sPort in
          match err with
          | Some e => (None, Some e)
          | None => (Some {| IPAddrPort_IP := ip; Port := port |}, None)
          end
      end
  end.

Definition SafeParseIP4Addr (s : string) : netIP :=
  match ParseIP s with None => ParseIP "0.0.0.0" | ip => ip end.

Definition SafeParseIP6Addr (s : string) : netIP :=
  match ParseIP s with None => ParseIP "::" | ip => ip end.

(** ** Constants (event.go, ovmgmt.go, client.go) *)

Definition newlineSep := String "010"%char "".
Definition endMessage := "END".
Definition eventSep := ":".
Definition fieldSep := ",".
Definition byteCountEventKW := "BYTECOUNT".
Definition byteCountCliEventKW := "BYTECOUNT_CLI".
Definition echoEventKW := "ECHO".
Definition fatalEventKW := "FATAL".
Definition holdEventKW := "HOLD".
Definition infoEventKW := "INFO".
Definition logEventKW := "LOG".
Definition needOkEventKW := "NEED-OK".
Definition needStrEventKW := "NEED-STR".
Definition passwordEventKW := "PASSWORD".
Definition stateEventKW := "STATE".
Definition clientEventKW := "CLIENT".
Definition clientEnvMarker := "ENV".
Definition clientEnvKVSep := "=".

(** type eventEndMarker string *)
Definition eventEndMarker := string.
Definition emSingleLine : eventEndMarker := "".
Definition emClient : eventEndMarker :=
  clientEventKW ++ eventSep ++ clientEnvMarker ++ fieldSep ++ endMessage.

Definition ErrNoMsgFieldSep : error := OVpnError ("no field sep '" ++ fieldSep ++ "' found").

(** stringsSplitNK(s, sep, n, k): SplitN padded with empty strings to at
    least [k] parts. *)
Definition stringsSplitNK (s sep : string) (n k : Z) : list string :=
  let parts := SplitN s sep n in
  if (k <=? Z.of_nat (length parts))%Z then parts
  else (parts ++ replicate (Z.to_nat k - length parts) "")%list.

(** ** Event types *)

Record HoldEvent := { hold_body : string }.
Record LogEvent := { log_body : string; log_bodyParts : list string; log_ts : Z }.
Record StateEvent := { state_body : string; state_bodyParts : list string; state_ts : Z }.
Record EchoEvent := { echo_body : string; echo_ts : Z; echo_msg : string }.
Record ByteCountEvent := { bc_body : string; bc_bytesIn : Z; bc_bytesOut : Z }.
Record ByteCountClientEvent :=
  { bcc_body : string; bcc_cid : Z; bcc_bytesIn : Z; bcc_bytesOut : Z }.
Record SimpleEvent := { simple_keyword : string; simple_body : string }.
Record UnknownEvent := { unknown_keyword : string; unknown_body : string }.
Record MalformedEvent := { malformed_raw : string }.

(** type ClientEventNotification string *)
Inductive ClientEventNotification :=
  CEUnknown | CEConnect | CEReauth | CEEstablished | CEDisconnect | CEAddress.

#[global] Instance ClientEventNotification_eq_dec : EqDecision ClientEventNotification.
Proof. solve_decision. Defined.

Definition ClientEventNotification_string (t : ClientEventNotification) : string :=
  match t with
  | CEUnknown => "UNKNOWN" | CEConnect => "CONNECT" | CEReauth => "REAUTH"
  | CEEstablished => "ESTABLISHED" | CEDisconnect => "DISCONNECT" | CEAddress => "ADDRESS"
  end.

(** OVpnEnvironment (map[string]string); a nil map is the empty map. *)
Record ClientEvent := {
  rawHeader : string;
  ceType : ClientEventNotification;
  ce_cid : Z;
  ce_kid : Z;
  ce_addr : string;
  isAddrPri : bool;
  envs : gmap string string }.

(** Status3Client (status3_client.go) *)
Record Status3Client := {
  CommonName : string;
  RealAddr : option IPAddrPort;
  VirtualAddr : netIP;
  VirtualAddr6 : netIP;
  BytesRecv : Z;
  BytesSent : Z;
  ConnectedSinceRaw : string;
  ConnectedSinceTimestamp : Z;
  Username : string;
  ClientId : Z;
  PeerId : Z;
  DataChannelCipher : string;
  client_errs : list error }.

(** Status3Route *)
Record Status3Route := {
  VirtualAddrFlags : string;
  route_CommonName : string;
  route_RealAddr : option IPAddrPort;
  LastRefRaw : string;
  LastRefTimestamp : Z;
  route_errs : list error }.

(** Status3Event *)
Record Status3Event := {
  title : string;
  rawHumanTS : string;
  rawTS : string;
  se_ts : Z;
  clients : list Status3Client;
  invalidClients : list Status3Client;
  routes : list Status3Route;
  invalidRoutes : list Status3Route;
  headers : gmap string (list string);
  extra : gmap string (list string) }.

(** The Event interface, as the closed set of types that implement it in
    the package. [EvInvalid orig err] is InvalidEvent{orig, firstError};
    [orig = None] is a nil origin (for the status generator: the interface
    holding a nil *Status3Event). [EvStatus3] is *Status3Event. *)
Inductive Event :=
  | EvHold (e : HoldEvent)
  | EvLog (e : LogEvent)
  | EvState (e : StateEvent)
  | EvEcho (e : EchoEvent)
  | EvByteCount (e : ByteCountEvent)
  | EvByteCountClient (e : ByteCountClientEvent)
  | EvClient (e : ClientEvent)
  | EvSimple (e : SimpleEvent)
  | EvUnknown (e : UnknownEvent)
  | EvMalformed (e : MalformedEvent)
  | EvInvalid (orig : option Event) (firstError : option error)
  | EvStatus3 (e : Status3Event).

(** MalformedEvent.Raw() *)
Definition MalformedEvent_Raw (e : MalformedEvent) : string := malformed_raw e.

(** ** Event constructors (event.go, bytecount_event.go, client.go) *)

Definition NewHoldEvent (body : string) : HoldEvent := {| hold_body := body |}.
Definition NewSimpleEvent (keyword body : string) : SimpleEvent :=
  {| simple_keyword := keyword; simple_body := body |}.
Definition NewUnknownEvent (keyword body : string) : UnknownEvent :=
  {| unknown_keyword := keyword; unknown_body := body |}.
Definition NewMalformedEvent (raw : string) : MalformedEvent := {| malformed_raw := raw |}.

Definition NewLogEvent (body : string) : option (LogEvent * option error) :=
  let bodyParts := stringsSplitNK body fieldSep 3 3 in
  p0 ← bodyParts !! 0;
  let '(ts, err) := ParseInt p0 in
  Some ({| log_body := body; log_bodyParts := bodyParts; log_ts := ts |}, err).

Definition NewStateEvent (body : string) : option (StateEvent * option error) :=
  let bodyParts := stringsSplitNK body fieldSep 9 5 in
  p0 ← bodyParts !! 0;
  let '(ts, err) := ParseInt p0 in
  Some ({| state_body := body; state_bodyParts := bodyParts; state_ts := ts |}, err).

Definition NewEchoEvent (body : string) : EchoEvent * option error :=
  match Index body fieldSep with
  | None => ({| echo_body := body; echo_ts := 0; echo_msg := "" |}, Some ErrNoMsgFieldSep)
  | Some sepIndex =>
      let msg := slice_from body (sepIndex + 1) in
      let '(ts, err) := ParseInt (slice_to body sepIndex) in
      ({| echo_body := body; echo_ts := ts; echo_msg := msg |}, err)
  end.

Definition NewByteCountEvent (body : string) : option (ByteCountEvent * option error) :=
  let bodyParts := stringsSplitNK body fieldSep 2 2 in
  p0 ← bodyParts !! 0;
  let '(bytesIn, err) := ParseInt p0 in
  match err with
  | Some _ => Some ({| bc_body := body; bc_bytesIn := bytesIn; bc_bytesOut := 0 |}, err)
  | None =>
      p1 ← bodyParts !! 1;
      let '(bytesOut, err) := ParseInt p1 in
      Some ({| bc_body := body; bc_bytesIn := bytesIn; bc_bytesOut := bytesOut |}, err)
  end.

Definition NewByteCountClientEvent (body : string) : option (ByteCountClientEvent * option error) :=
  let bodyParts := stringsSplitNK body fieldSep 3 3 in
  p0 ← bodyParts !! 0;
  let '(cid, err) := ParseInt p0 in
  match err with
  | Some _ => Some ({| bcc_body := body; bcc_cid := cid; bcc_bytesIn := 0; bcc_bytesOut := 0 |}, err)
  | None =>
      p1 ← bodyParts !! 1;
      let '(bytesIn, err) := ParseInt p1 in
      match err with
      | Some _ =>
          Some ({| bcc_body := body; bcc_cid := cid; bcc_bytesIn := bytesIn; bcc_bytesOut := 0 |}, err)
      | None =>
          p2 ← bodyParts !! 2;
          let '(bytesOut, err) := ParseInt p2 in
          Some ({| bcc_body := body; bcc_cid := cid; bcc_bytesIn := bytesIn;
                   bcc_bytesOut := bytesOut |}, err)
      end
  end.

(** The switch on ClientEventNotification(params[0]). *)
Definition parseNotification (s : string) : option ClientEventNotification :=
  if String.eqb s "CONNECT" then Some CEConnect
  else if String.eqb s "REAUTH" then Some CEReauth
  else if String.eqb s "ESTABLISHED" then Some CEEstablished
  else if String.eqb s "DISCONNECT" then Some CEDisconnect
  else if String.eqb s "ADDRESS" then Some CEAddress
  else None.

(** The loop over payload[1:] filling c.envs. *)
Fixpoint clientEnvLoop (lines : list string) (envs : gmap string string)
  : option (gmap string string * option error) :=
  match lines with
  | [] => Some (envs, None)
  | line :: rest =>
      if negb (HasPrefix line (clientEnvMarker ++ fieldSep)) then
        Some (envs, Some (ErrorString ("no env prefix in client event line: " ++ line)))
      else
        let kvLine := slice_from line (String.length (clientEnvMarker ++ fieldSep)) in
        let parts := stringsSplitNK kvLine clientEnvKVSep 2 2 in
        k ← parts !! 0;
        v ← parts !! 1;
        clientEnvLoop rest (<[k := v]> envs)
  end.

Definition mkClientEvent hdr t cid kid addr pri envs : ClientEvent :=
  {| rawHeader := hdr; ceType := t; ce_cid := cid; ce_kid := kid; ce_addr := addr;
     isAddrPri := pri; envs := envs |}.

Definition NewClientEvent (payload : list string) : option (ClientEvent * option error) :=
  hdr ← payload !! 0;
  let params := stringsSplitNK hdr fieldSep 4 4 in
  p0 ← params !! 0;
  match parseNotification p0 with
  | None =>
      Some (mkClientEvent hdr CEUnknown 0 0 "" false ∅,
            Some (ErrorString ("unknown client event type: " ++ p0)))
  | Some t =>
      p1 ← params !! 1;
      let '(cid, err) := ParseInt p1 in
      match err with
      | Some _ => Some (mkClientEvent hdr t cid 0 "" false ∅, err)
      | None =>
          kidr ← (if bool_decide (t = CEConnect) || bool_decide (t = CEReauth) then
                    p2 ← params !! 2; Some (ParseInt p2)
                  else Some (0%Z, None));
          let '(kid, err) := kidr in
          match err with
          | Some _ => Some (mkClientEvent hdr t cid kid "" false ∅, err)
          | None =>
              if bool_decide (t = CEAddress) then
                p2 ← params !! 2;
                p3 ← params !! 3;
                let '(pri, err) := ParseBool p3 in
                Some (mkClientEvent hdr t cid kid p2 pri ∅, err)
              else
                '(envs, err) ← clientEnvLoop (drop 1 payload) ∅;
                Some (mkClientEvent hdr t cid kid "" false envs, err)
          end
      end
  end.

(** ** The event factory (event.go) *)

(** splitEvent(line) *)
Definition splitEvent (line : string) : eventEndMarker * string * string :=
  match Index line eventSep with
  | None => (emSingleLine, "", line)
  | Some splitIdx =>
      let keyword := slice_to line splitIdx in
      let body := slice_from line (splitIdx + 1) in
      if String.eqb keyword clientEventKW &&
         (HasPrefix body (ClientEventNotification_string CEConnect)
          || HasPrefix body (ClientEventNotification_string CEReauth)
          || HasPrefix body (ClientEventNotification_string CEEstablished)
          || HasPrefix body (ClientEventNotification_string CEDisconnect)
          || HasPrefix body clientEnvMarker)
      then (emClient, keyword, body)
      else (emSingleLine, keyword, body)
  end.

(** The switch of upgradeEvent, before the final wrapping in InvalidEvent. *)
Definition upgradeEvent_switch (keyword body : string) : option (Event * option error) :=
  if String.eqb keyword "" then Some (EvMalformed (NewMalformedEvent body), None)
  else if String.eqb keyword logEventKW then
    '(e, err) ← NewLogEvent body; Some (EvLog e, err)
  else if String.eqb keyword stateEventKW then
    '(e, err) ← NewStateEvent body; Some (EvState e, err)
  else if String.eqb keyword holdEventKW then Some (EvHold (NewHoldEvent body), None)
  else if String.eqb keyword echoEventKW then
    let '(e, err) := NewEchoEvent body in Some (EvEcho e, err)
  else if String.eqb keyword byteCountEventKW then
    '(e, err) ← NewByteCountEvent body; Some (EvByteCount e, err)
  else if String.eqb keyword byteCountCliEventKW then
    '(e, err) ← NewByteCountClientEvent body; Some (EvByteCountClient e, err)
  else if String.eqb keyword clientEventKW then
    '(e, err) ← NewClientEvent [body]; Some (EvClient e, err)
  else if existsb (String.eqb keyword)
            [infoEventKW; needOkEventKW; needStrEventKW; passwordEventKW; fatalEventKW] then
    Some (EvSimple (NewSimpleEvent keyword body), None)
  else Some (EvUnknown (NewUnknownEvent keyword body), None).

(** if err != nil { return NewInvalidEvent(evt, err) }; return evt *)
Definition wrapInvalid (r : Event * option error) : Event :=
  match r with
  | (evt, Some e) => EvInvalid (Some evt) (Some e)
  | (evt, None) => evt
  end.

(** upgradeEvent(keyword, body) *)
Definition upgradeEvent (keyword body : string) : option Event :=
  r ← upgradeEvent_switch keyword body; Some (wrapInvalid r).

(** upgradeMultilineEvent(keyword, body) *)
Definition upgradeMultilineEvent (keyword : string) (body : list string) : option Event :=
  r ← (if String.eqb keyword "" then
         Some (EvMalformed (NewMalformedEvent (Join body newlineSep)), None)
       else if String.eqb keyword clientEventKW then
         '(e, err) ← NewClientEvent body; Some (EvClient e, err)
       else Some (EvUnknown (NewUnknownEvent keyword (Join body newlineSep)), None));
  Some (wrapInvalid r).

(** The factory applied to one raw line, as the tests and the scanner do. *)
Definition eventOfLine (line : string) : option Event :=
  let '(_, kw, body) := splitEvent line in upgradeEvent kw body.

(** ** The event scanner of MgmtClient (ovmgmt.go, eventScanner) *)

(** The local state of eventScanner: bufKW and buf. *)
Record ScanState := { bufKW : string; buf : list string }.

Definition scanIdle : ScanState := {| bufKW := ""; buf := [] |}.

(** What the scanner does to the caller's event channel. *)
Inductive Delivery := Deliver (e : Event) | CloseSink.

(** flushMultilineBuf: emit upgradeMultilineEvent(bufKW, buf), then reset. *)
Definition flushMultilineBuf (st : ScanState) : option Event :=
  upgradeMultilineEvent (bufKW st) (buf st).

(** One iteration of the loop over c.rawEventCh: the events sent to
    c.eventSink, in order, and the new state. *)
Definition scanStep (st : ScanState) (raw : string) : option (list Event * ScanState) :=
  let '(endMarker, keyword, body) := splitEvent raw in
  if String.eqb endMarker emSingleLine then
    e ← upgradeEvent keyword body;
    if negb (Nat.eqb (length (buf st)) 0) || negb (String.eqb (bufKW st) "") then
      f ← flushMultilineBuf st;
      Some ([e; f], scanIdle)
    else Some ([e], st)
  else if String.eqb raw endMarker then
    f ← flushMultilineBuf st;
    Some ([f], scanIdle)
  else if String.eqb (bufKW st) "" then
    Some ([], {| bufKW := keyword; buf := (buf st ++ [body])%list |})
  else if negb (String.eqb (bufKW st) keyword) then
    f ← flushMultilineBuf st;
    e ← upgradeEvent keyword body;
    Some ([f; e], scanIdle)
  else Some ([], {| bufKW := bufKW st; buf := (buf st ++ [body])%list |}).

(** The loop over the event lane, from state [st]. *)
Fixpoint scanLines (st : ScanState) (lines : list string) : option (list Event * ScanState) :=
  match lines with
  | [] => Some ([], st)
  | raw :: rest =>
      '(es, st') ← scanStep st raw;
      '(es', st'') ← scanLines st' rest;
      Some ((es ++ es')%list, st'')
  end.

(** eventScanner() on an event lane that delivers [lines] and is then
    closed: everything sent on c.eventSink, ending with close(c.eventSink). *)
Definition eventScanner (lines : list string) : option (list Delivery) :=
  '(es, _) ← scanLines scanIdle lines;
  Some ((map Deliver es) ++ [CloseSink])%list.

(** ** 'status 3' snapshots (status3_client.go, the route and event files) *)

Definition status3TitleKW := "TITLE".
Definition status3TimeKW := "TIME".
Definition status3HeaderKW := "HEADER".
Definition status3ClientListKW := "CLIENT_LIST".
Definition status3RoutingTableKW := "ROUTING_TABLE".
Definition status3FieldSep := String "009"%char "".

Definition CLHeaderMax : nat := 12.
Definition RTHeaderMax : nat := 5.

(** The padding of NewStatus3Client/NewStatus3Route: make + copy. *)
Definition padFields (fields : list string) (k : nat) : list string :=
  if Nat.ltb (length fields) k then (fields ++ replicate (k - length fields) "")%list else fields.

(** [c.errs = append(c.errs, err)] when err != nil *)
Definition appendErr (errs : list error) (err : option error) : list error :=
  match err with Some e => (errs ++ [e])%list | None => errs end.

Definition NewStatus3Client (fields0 : list string) : option Status3Client :=
  let fields := padFields fields0 CLHeaderMax in
  cn ← fields !! 0; ra ← fields !! 1; va ← fields !! 2; va6 ← fields !! 3;
  br ← fields !! 4; bs ← fields !! 5; csr ← fields !! 6; cst ← fields !! 7;
  un ← fields !! 8; ci ← fields !! 9; pi ← fields !! 10; dcc ← fields !! 11;
  let '(realAddr, e1) := ParseIPAddrPort ra in
  let '(bytesRecv, e2) := ParseInt br in
  let '(bytesSent, e3) := ParseInt bs in
  let '(since, e4) := ParseInt cst in
  let '(clientId, e5) := ParseInt ci in
  let '(peerId, e6) := ParseInt pi in
  Some {| CommonName := cn; RealAddr := realAddr;
          VirtualAddr := SafeParseIP4Addr va; VirtualAddr6 := SafeParseIP6Addr va6;
          BytesRecv := bytesRecv; BytesSent := bytesSent;
          ConnectedSinceRaw := csr; ConnectedSinceTimestamp := since;
          Username := un; ClientId := clientId; PeerId := peerId;
          DataChannelCipher := dcc;
          client_errs :=
            appendErr (appendErr (appendErr (appendErr (appendErr (appendErr [] e1) e2) e3) e4) e5) e6 |}.

Definition NewStatus3Route (fields0 : list string) : option Status3Route :=
  let fields := padFields fields0 RTHeaderMax in
  vaf ← fields !! 0; cn ← fields !! 1; ra ← fields !! 2; lrr ← fields !! 3; lrt ← fields !! 4;
  let '(realAddr, e1) := ParseIPAddrPort ra in
  let '(lastRef, e2) := ParseInt lrt in
  Some {| VirtualAddrFlags := vaf; route_CommonName := cn; route_RealAddr := realAddr;
          LastRefRaw := lrr; LastRefTimestamp := lastRef;
          route_errs := appendErr (appendErr [] e1) e2 |}.

(** The slice expression s[i:], which panics when i > len(s). *)
Definition sliceFrom {A} (l : list A) (i : nat) : option (list A) :=
  if Nat.ltb (length l) i then None else Some (drop i l).

Definition emptyStatus3Event : Status3Event :=
  {| title := ""; rawHumanTS := ""; rawTS := ""; se_ts := 0; clients := [];
     invalidClients := []; routes := []; invalidRoutes := []; headers := ∅; extra := ∅ |}.

Definition mkS3 t h r ts cl icl rt irt hd ex : Status3Event :=
  {| title := t; rawHumanTS := h; rawTS := r; se_ts := ts; clients := cl;
     invalidClients := icl; routes := rt; invalidRoutes := irt; headers := hd; extra := ex |}.

(** The loop of NewStatus3Event over the payload lines. *)
Fixpoint status3Loop (payload : list string) (se : Status3Event)
  : option (Status3Event * option error) :=
  match payload with
  | [] => Some (se, None)
  | line :: rest =>
      let lineFields0 := Split line status3FieldSep in
      lineType ← lineFields0 !! 0;
      lineFields ← sliceFrom lineFields0 1;
      let '(Build_Status3Event t h r ts cl icl rt irt hd ex) := se in
      if String.eqb lineType status3TitleKW then
        status3Loop rest (mkS3 (Join lineFields status3FieldSep) h r ts cl icl rt irt hd ex)
      else if String.eqb lineType status3TimeKW then
        h' ← lineFields !! 0;
        r' ← lineFields !! 1;
        let '(ts', err) := ParseInt r' in
        let se' := mkS3 t h' r' ts' cl icl rt irt hd ex in
        match err with
        | Some _ => Some (se', err)
        | None => status3Loop rest se'
        end
      else if String.eqb lineType status3HeaderKW then
        headerType ← lineFields !! 0;
        cols ← sliceFrom lineFields 1;
        status3Loop rest (mkS3 t h r ts cl icl rt irt (<[headerType := cols]> hd) ex)
      else if String.eqb lineType status3ClientListKW then
        c ← NewStatus3Client lineFields;
        if Nat.ltb 0 (length (client_errs c)) then
          status3Loop rest (mkS3 t h r ts cl (icl ++ [c])%list rt irt hd ex)
        else status3Loop rest (mkS3 t h r ts (cl ++ [c])%list icl rt irt hd ex)
      else if String.eqb lineType status3RoutingTableKW then
        c ← NewStatus3Route lineFields;
        if Nat.ltb 0 (length (route_errs c)) then
          status3Loop rest (mkS3 t h r ts cl icl rt (irt ++ [c])%list hd ex)
        else status3Loop rest (mkS3 t h r ts cl icl (rt ++ [c])%list irt hd ex)
      else status3Loop rest (mkS3 t h r ts cl icl rt irt hd (<[lineType := lineFields]> ex))
  end.

(** NewStatus3Event(payload) *)
Definition NewStatus3Event (payload : list string) : option (Status3Event * option error) :=
  status3Loop payload emptyStatus3Event.

(** ** The command channel (ovmgmt.go) and the status generator *)

(** The transport as one command call sees it: the result of writing the
    command, and the lines the reply lane delivers before it is closed. *)
Record Transport := { writeErr : option error; replyLane : list string }.

Definition successPrefix := "SUCCESS: ".
Definition errorPrefix := "ERROR: ".

(** sendCommand(cmd): the bytes handed to c.wr.Write, and its error. *)
Definition sendCommand (cmd : string) (t : Transport) : list string * option error :=
  ([cmd ++ newlineSep], writeErr t).

Definition readCommandResult (replies : list string) : string * option error :=
  match replies with
  | [] => ("", Some (ErrorString "connection closed while awaiting result"))
  | reply :: _ =>
      if HasPrefix reply successPrefix then
        (slice_from reply (String.length successPrefix), None)
      else if HasPrefix reply errorPrefix then
        ("", Some (OVpnError (slice_from reply (String.length errorPrefix))))
      else ("", Some (ErrorString "malformed result message"))
  end.

Fixpoint readCommandResponsePayload (replies : list string) : list string * option error :=
  match replies with
  | [] => ([], Some (ErrorString "connection closed before END recieved"))
  | line :: rest =>
      if String.eqb line endMessage then ([], None)
      else let '(lines, err) := readCommandResponsePayload rest in (line :: lines, err)
  end.

(** simpleCommand(cmd): the writes performed and the result. *)
Definition simpleCommand (cmd : string) (t : Transport) : list string * (string * option error) :=
  let '(written, err) := sendCommand cmd t in
  match err with
  | Some e => (written, ("", Some e))
  | None => (written, readCommandResult (replyLane t))
  end.

(** SetVerbosityLevel(level): the writes performed and the returned error. *)
Definition SetVerbosityLevel (level : Z) (t : Transport) : list string * option error :=
  let err := ErrorString ("bad verbosity level '" ++ Itoa level ++ "', should be from 0 to 15") in
  if (0 <? level)%Z && (level <? 16)%Z then
    let '(written, (_, e)) := simpleCommand ("verb " ++ Itoa level) t in (written, e)
  else ([], Some err).

(** LatestStatus3(): a nil pointer is [None]. *)
Definition LatestStatus3 (t : Transport) : option (option Status3Event * option error) :=
  let '(_, err) := sendCommand "status 3" t in
  match err with
  | Some e => Some (None, Some e)
  | None =>
      let '(payload, err) := readCommandResponsePayload (replyLane t) in
      match err with
      | Some e => Some (None, Some e)
      | None => '(s, err) ← NewStatus3Event payload; Some (Some s, err)
      end
  end.

(** generateStatus3Event(): the event sent to c.eventSink. *)
Definition generateStatus3Event (t : Transport) : option Event :=
  '(evt, err) ← LatestStatus3 t;
  match evt, err with
  | Some s, None => Some (EvStatus3 s)
  | _, _ => Some (EvInvalid (EvStatus3 <$> evt) err)
  end.

(** ** Auxiliary definitions for the claims *)

(** The five body prefixes that the claims name for multi-line CLIENT
    notifications. *)
Definition clientMultilinePrefix (body : string) : bool :=
  HasPrefix body "CONNECT" || HasPrefix body "REAUTH" || HasPrefix body "ESTABLISHED"
  || HasPrefix body "DISCONNECT" || HasPrefix body "ENV".

(** A continuation line of a multi-line CLIENT block (not its terminator). *)
Definition clientContinuation (b : string) : bool :=
  clientMultilinePrefix b && negb (String.eqb b "ENV,END").

Definition is_invalid (e : Event) : bool :=
  match e with EvInvalid _ _ => true | _ => false end.

Definition connectEvent : ClientEvent :=
  {| rawHeader := "CONNECT,7,2"; ceType := CEConnect; ce_cid := 7; ce_kid := 2;
     ce_addr := ""; isAddrPri := false; envs := ∅ |}.

Definition envUnknownEvent : Event :=
  EvInvalid
    (Some (EvClient {| rawHeader := "ENV,a=b"; ceType := CEUnknown; ce_cid := 0; ce_kid := 0;
                       ce_addr := ""; isAddrPri := false; envs := ∅ |}))
    (Some (ErrorString "unknown client event type: ENV")).







(** ** Accessors of the event types (event.go, event_test.go, bytecount_event.go,
    client.go); an index expression that panics out of range is [None]. *)

(** SimpleEvent.Raw() and UnknownEvent.Raw() *)
Definition SimpleEvent_Raw (e : SimpleEvent) : string :=
  simple_keyword e ++ eventSep ++ simple_body e.
Definition UnknownEvent_Raw (e : UnknownEvent) : string :=
  unknown_keyword e ++ eventSep ++ unknown_body e.

(** LogEvent.RawFlags(), Message() and String() *)
Definition LogEvent_RawFlags (e : LogEvent) : option string := log_bodyParts e !! 1.
Definition LogEvent_Message (e : LogEvent) : option string := log_bodyParts e !! 2.
Definition LogEvent_String (e : LogEvent) : option string :=
  flags ← LogEvent_RawFlags e; msg ← LogEvent_Message e;
  Some ("LOG[" ++ flags ++ "]: " ++ msg).

(** StateEvent.Name(), Description(), LocalTunnelAddr(), RemoteAddr() and String() *)
Definition StateEvent_Name (e : StateEvent) : option string := state_bodyParts e !! 1.
Definition StateEvent_Description (e : StateEvent) : option string := state_bodyParts e !! 2.
Definition StateEvent_LocalTunnelAddr (e : StateEvent) : option string := state_bodyParts e !! 3.
Definition StateEvent_RemoteAddr (e : StateEvent) : option string := state_bodyParts e !! 4.
Definition StateEvent_String (e : StateEvent) : option string :=
  stateName ← StateEvent_Name e;
  if String.eqb stateName "ASSIGN_IP" then
    a ← StateEvent_LocalTunnelAddr e; Some (stateName ++ ": " ++ a)
  else if String.eqb stateName "CONNECTED" then
    a ← StateEvent_RemoteAddr e; Some (stateName ++ ": " ++ a)
  else
    desc ← StateEvent_Description e;
    if negb (String.eqb desc "") then Some (stateName ++ ": " ++ desc) else Some stateName.

(** EchoEvent.Message() and String() *)
Definition EchoEvent_Message (e : EchoEvent) : string := echo_msg e.
Definition EchoEvent_String (e : EchoEvent) : string := "ECHO: " ++ EchoEvent_Message e.

(** ClientEvent.RawEnv(key): a missing key reads as the zero value. *)
Definition ClientEvent_RawEnv (c : ClientEvent) (key : string) : string :=
  default "" (envs c !! key).

(** ** More commands of MgmtClient (ovmgmt.go) *)

(** HoldRelease(), SetLogEvents(on), SetStateEvents(on), SetEchoEvents(on):
    the writes performed and the returned error. *)
Definition HoldRelease (t : Transport) : list string * option error :=
  let '(written, (_, err)) := simpleCommand "hold release" t in (written, err).
Definition SetLogEvents (on : bool) (t : Transport) : list string * option error :=
  let '(written, (_, err)) := simpleCommand (if on then "log on" else "log off") t in (written, err).
Definition SetStateEvents (on : bool) (t : Transport) : list string * option error :=
  let '(written, (_, err)) := simpleCommand (if on then "state on" else "state off") t in (written, err).
Definition SetEchoEvents (on : bool) (t : Transport) : list string * option error :=
  let '(written, (_, err)) := simpleCommand (if on then "echo on" else "echo off") t in (written, err).

(** VerbosityLevel() *)
Definition VerbosityLevel (t : Transport) : Z * option error :=
  let '(_, (result, err)) := simpleCommand "verb" t in
  if negb (HasPrefix result "verb=") then (0%Z, err)
  else Atoi (slice_from result (String.length "verb=")).

(** LatestState(): a nil pointer is [None]. *)
Definition LatestState (t : Transport) : option (option StateEvent * option error) :=
  let '(_, err) := sendCommand "state" t in
  match err with
  | Some e => Some (None, Some e)
  | None =>
      let '(payload, err) := readCommandResponsePayload (replyLane t) in
      match err with
      | Some e => Some (None, Some e)
      | None =>
          if negb (Nat.eqb (length payload) 1) then
            Some (None, Some (ErrorString "Malformed OpenVPN 'state' response"))
          else
            p0 ← payload !! 0;
            '(s, err) ← NewStateEvent p0;
            Some (Some s, err)
      end
  end.

(** The errors Pid() returns: the error of the command itself, or one of the
    two values it builds with fmt.Errorf, "malformed response from OpenVPN"
    and "error parsing pid from OpenVPN: %s" around the strconv error. *)
Inductive PidError :=
  | PidCommandError (e : error)
  | PidMalformed
  | PidParseError (e : error).

(** Pid() *)
Definition Pid (t : Transport) : Z * option PidError :=
  let '(_, (raw, err)) := simpleCommand "pid" t in
  match err with
  | Some e => (0%Z, Some (PidCommandError e))
  | None =>
      if negb (HasPrefix raw "pid=") then (0%Z, Some PidMalformed)
      else
        let '(pid, err) := Atoi (slice_from raw 4) in
        match err with
        | Some e => (0%Z, Some (PidParseError e))
        | None => (pid, None)
        end
  end.

(** ** Auxiliary definitions for the further properties *)

(** The value of a decimal digit string, read from the left onto [acc]. *)
Fixpoint uval (d : Decimal.uint) (acc : Z) : Z :=
  match d with
  | Decimal.Nil => acc
  | Decimal.D0 l => uval l (acc * 10)
  | Decimal.D1 l => uval l (acc * 10 + 1)
  | Decimal.D2 l => uval l (acc * 10 + 2)
  | Decimal.D3 l => uval l (acc * 10 + 3)
  | Decimal.D4 l => uval l (acc * 10 + 4)
  | Decimal.D5 l => uval l (acc * 10 + 5)
  | Decimal.D6 l => uval l (acc * 10 + 6)
  | Decimal.D7 l => uval l (acc * 10 + 7)
  | Decimal.D8 l => uval l (acc * 10 + 8)
  | Decimal.D9 l => uval l (acc * 10 + 9)
  end%Z.

(** The range of int64. *)
Definition int64_range (n : Z) : Prop := (- 2 ^ 63 <= n < 2 ^ 63)%Z.

(** The environment line ENV,k=v of a multi-line CLIENT notification. *)
Definition envLine (kv : string * string) : string :=
  clientEnvMarker ++ fieldSep ++ kv.1 ++ clientEnvKVSep ++ kv.2.

(** The map a sequence of assignments c.envs[k] = v leaves. *)
Definition envsOf (kvs : list (string * string)) (m : gmap string string) : gmap string string :=
  foldl (fun m kv => <[kv.1 := kv.2]> m) m kvs.

(** What the event lane carries: single-line events, and complete CLIENT
    blocks (the lines CLIENT:b for each body line b, then CLIENT:ENV,END). *)
Inductive LaneItem := SingleLine (raw : string) | ClientBlock (bodies : list string).

Definition item_lines (i : LaneItem) : list string :=
  match i with
  | SingleLine raw => [raw]
  | ClientBlock bodies => (map (fun b => ("CLIENT:" ++ b)%string) bodies ++ [emClient])%list
  end.

Definition item_ok (i : LaneItem) : bool :=
  match i with
  | SingleLine raw => let '(em, _, _) := splitEvent raw in String.eqb em emSingleLine
  | ClientBlock bodies => negb (Nat.eqb (length bodies) 0) && forallb clientContinuation bodies
  end.

Definition item_event (i : LaneItem) : option Event :=
  match i with
  | SingleLine raw => eventOfLine raw
  | ClientBlock bodies => upgradeMultilineEvent clientEventKW bodies
  end.

(** * Proofs *)

(** ** Padding and indexing: the fixed-width splits never index out of range *)

Lemma stringsSplitNK_length (s sep : string) (n k : Z) :
  (0 <= k)%Z -> Z.to_nat k <= length (stringsSplitNK s sep n k).
Proof.
  intros Hk. unfold stringsSplitNK.
  destruct (Z.leb_spec k (Z.of_nat (length (SplitN s sep n)))) as [Hle | Hgt].
  - lia.
  - rewrite length_app, length_replicate. lia.
Qed.

Lemma stringsSplitNK_lookup (s sep : string) (n k : Z) (i : nat) :
  (Z.of_nat i < k)%Z -> is_Some (stringsSplitNK s sep n k !! i).
Proof.
  intros Hi. apply lookup_lt_is_Some_2.
  pose proof (stringsSplitNK_length s sep n k) as H. lia.
Qed.

(** Replace each in-range lookup into a padded split by its value. *)
Ltac open_split_lookups :=
  repeat match goal with
  | |- context [stringsSplitNK ?s ?sep ?n ?k !! ?i] =>
      let p := fresh "p" in
      let Hp := fresh "Hp" in
      destruct (stringsSplitNK_lookup s sep n k i) as [p Hp]; [lia |];
      rewrite Hp; cbn [mbind option_bind]
  end.

(** Totality of a constructor: open the lookups, then split every case. *)
Ltac solve_total_with tac :=
  repeat first [ progress open_split_lookups | case_match
               | progress cbn [mbind option_bind skipn] | progress tac ]; cbn; eauto.
Ltac solve_total := solve_total_with idtac.

Lemma NewLogEvent_total body : is_Some (NewLogEvent body).
Proof. unfold NewLogEvent. solve_total. Qed.

Lemma NewStateEvent_total body : is_Some (NewStateEvent body).
Proof. unfold NewStateEvent. solve_total. Qed.

Lemma NewByteCountEvent_total body : is_Some (NewByteCountEvent body).
Proof. unfold NewByteCountEvent. solve_total. Qed.

Lemma NewByteCountClientEvent_total body : is_Some (NewByteCountClientEvent body).
Proof. unfold NewByteCountClientEvent. solve_total. Qed.

Lemma clientEnvLoop_total lines envs : is_Some (clientEnvLoop lines envs).
Proof.
  revert envs. induction lines as [|line rest IH]; intros envs; simpl; [eauto |].
  destruct (negb _); [eauto |]. open_split_lookups. apply IH.
Qed.

Lemma NewClientEvent_total payload : payload <> [] -> is_Some (NewClientEvent payload).
Proof.
  intros Hne. destruct payload as [|hdr rest]; [congruence |].
  destruct (clientEnvLoop_total rest ∅) as [[envs0 err0] Henv].
  unfold NewClientEvent. cbn [lookup list_lookup mbind option_bind skipn].
  solve_total_with ltac:(rewrite ?drop_0, ?Henv).
Qed.

Lemma upgradeEvent_total keyword body : is_Some (upgradeEvent keyword body).
Proof.
  unfold upgradeEvent, upgradeEvent_switch.
  repeat match goal with
  | |- context [if ?b then _ else _] => destruct b
  end;
  repeat match goal with
  | |- context [NewLogEvent ?b] => destruct (NewLogEvent_total b) as [[? ?] ->]
  | |- context [NewStateEvent ?b] => destruct (NewStateEvent_total b) as [[? ?] ->]
  | |- context [NewByteCountEvent ?b] => destruct (NewByteCountEvent_total b) as [[? ?] ->]
  | |- context [NewByteCountClientEvent ?b] =>
      destruct (NewByteCountClientEvent_total b) as [[? ?] ->]
  | |- context [NewClientEvent [?b]] =>
      destruct (NewClientEvent_total [b]) as [[? ?] ->]; [congruence |]
  | |- context [NewEchoEvent ?b] => destruct (NewEchoEvent b)
  end; cbn; eauto.
Qed.

Lemma upgradeMultilineEvent_total keyword body :
  (keyword = clientEventKW -> body <> []) -> is_Some (upgradeMultilineEvent keyword body).
Proof.
  intros Hb. unfold upgradeMultilineEvent.
  destruct (String.eqb keyword "") eqn:E1; [cbn; eauto |].
  destruct (String.eqb keyword clientEventKW) eqn:E2; [| cbn; eauto].
  apply String.eqb_eq in E2.
  destruct (NewClientEvent_total body (Hb E2)) as [[? ?] ->]. cbn. eauto.
Qed.

(** ** The scanner: only CLIENT lines are multi-line, and the state stays
    either idle or a non-empty CLIENT buffer *)

Lemma splitEvent_multiline raw em kw body :
  splitEvent raw = (em, kw, body) -> em <> emSingleLine ->
  em = emClient /\ kw = clientEventKW.
Proof.
  unfold splitEvent. destruct (Index raw eventSep) as [i|].
  - case_match eqn:E; intros Heq Hne; inversion Heq; subst; [| congruence].
    apply andb_true_iff in E as [E _]. apply String.eqb_eq in E. auto.
  - intros Heq Hne. inversion Heq; subst. congruence.
Qed.

Definition scan_inv (st : ScanState) : Prop :=
  (bufKW st = "" /\ buf st = []) \/ (bufKW st = clientEventKW /\ buf st <> []).

Lemma scan_inv_idle : scan_inv scanIdle.
Proof. left. split; reflexivity. Qed.

Lemma flush_total st : scan_inv st -> is_Some (flushMultilineBuf st).
Proof.
  intros [[Hk Hb] | [Hk Hb]]; apply upgradeMultilineEvent_total; rewrite Hk;
    [discriminate | auto].
Qed.

Lemma scanStep_inv st raw :
  scan_inv st -> exists es st', scanStep st raw = Some (es, st') /\ scan_inv st'.
Proof.
  intros Hinv. unfold scanStep.
  destruct (splitEvent raw) as [[em kw] body] eqn:Hs.
  destruct (String.eqb em emSingleLine) eqn:E1.
  - destruct (upgradeEvent_total kw body) as [e ->]. cbn [mbind option_bind].
    case_match.
    + destruct (flush_total st Hinv) as [f ->]. cbn. eauto using scan_inv_idle.
    + eauto.
  - apply String.eqb_neq in E1.
    destruct (splitEvent_multiline raw em kw body Hs E1) as [-> ->].
    destruct (String.eqb raw emClient).
    { destruct (flush_total st Hinv) as [f ->]. cbn. eauto using scan_inv_idle. }
    destruct (String.eqb (bufKW st) "") eqn:E3.
    { do 2 eexists. split; [reflexivity |]. right. cbn. split; [reflexivity |].
      destruct (buf st); discriminate. }
    destruct (negb (String.eqb (bufKW st) clientEventKW)) eqn:E4.
    { destruct (flush_total st Hinv) as [f ->].
      destruct (upgradeEvent_total clientEventKW body) as [e ->]. cbn.
      eauto using scan_inv_idle. }
    do 2 eexists. split; [reflexivity |]. right. cbn.
    apply negb_false_iff, String.eqb_eq in E4. split; [exact E4 |].
    destruct (buf st); discriminate.
Qed.

Lemma scanLines_inv st lines :
  scan_inv st -> exists es st', scanLines st lines = Some (es, st') /\ scan_inv st'.
Proof.
  revert st. induction lines as [|raw rest IH]; intros st Hinv; cbn [scanLines].
  - eauto.
  - destruct (scanStep_inv st raw Hinv) as (es & st' & -> & Hinv').
    cbn [mbind option_bind].
    destruct (IH st' Hinv') as (es' & st'' & -> & Hinv''). cbn. eauto.
Qed.

(** ** Lines of the CLIENT family *)

Lemma substring_0_length (s : string) : String.substring 0 (String.length s) s = s.
Proof. induction s as [|c s IH]; simpl; [reflexivity | now rewrite IH]. Qed.

Lemma splitEvent_client (b : string) :
  splitEvent ("CLIENT:" ++ b) =
  (if clientMultilinePrefix b then emClient else emSingleLine, clientEventKW, b).
Proof.
  unfold splitEvent, slice_to, slice_from, Index, eventSep, clientEventKW.
  cbv [String.append].
  replace (String.index 0 ":" _) with (Some 6) by (destruct b; reflexivity).
  cbn -[HasPrefix clientMultilinePrefix].
  rewrite Nat.sub_0_r, substring_0_length.
  unfold clientMultilinePrefix. now destruct (_ || _).
Qed.

Lemma scanStep_continuation st b :
  scan_inv st -> clientContinuation b = true ->
  scanStep st ("CLIENT:" ++ b) =
  Some ([], {| bufKW := clientEventKW; buf := (buf st ++ [b])%list |}).
Proof.
  intros Hinv Hb. apply andb_true_iff in Hb as [Hp Hend].
  unfold scanStep. rewrite splitEvent_client, Hp.
  assert (String.eqb ("CLIENT:" ++ b) emClient = false) as ->.
  { apply String.eqb_neq. intros Heq.
    cbv [emClient clientEventKW eventSep clientEnvMarker fieldSep endMessage String.append] in Heq.
    injection Heq as ->. vm_compute in Hend. discriminate Hend. }
  cbn -[String.append].
  destruct Hinv as [[-> _] | [-> _]]; reflexivity.
Qed.

Lemma scanLines_continuations st bodies :
  scan_inv st -> forallb clientContinuation bodies = true ->
  exists st', scanLines st (map (fun b => "CLIENT:" ++ b) bodies) = Some ([], st') /\ scan_inv st'.
Proof.
  revert st. induction bodies as [|b rest IH]; intros st Hinv Hall; cbn [map scanLines].
  - eauto.
  - cbn [forallb] in Hall. apply andb_true_iff in Hall as [Hb Hrest].
    rewrite (scanStep_continuation st b Hinv Hb). cbn [mbind option_bind].
    destruct (IH {| bufKW := clientEventKW; buf := (buf st ++ [b])%list |}) as (st' & -> & Hst');
      [| exact Hrest |].
    + right. split; [reflexivity |]. cbn. destruct (buf st); discriminate.
    + cbn. eauto.
Qed.

Lemma scanLines_app st l1 l2 :
  scanLines st (l1 ++ l2) =
  '(es1, st1) ← scanLines st l1; '(es2, st2) ← scanLines st1 l2; Some ((es1 ++ es2)%list, st2).
Proof.
  revert st. induction l1 as [|raw rest IH]; intros st; cbn [app scanLines].
  - cbn. destruct (scanLines st l2) as [[es st2]|]; cbn; reflexivity.
  - destruct (scanStep st raw) as [[es st1]|]; cbn [mbind option_bind]; [| reflexivity].
    rewrite IH. destruct (scanLines st1 rest) as [[es1 st2]|]; cbn; [| reflexivity].
    destruct (scanLines st2 l2) as [[es2 st3]|]; cbn; [| reflexivity].
    now rewrite app_assoc.
Qed.

(** ** Where InvalidEvent values come from *)

Lemma upgradeEvent_switch_not_invalid keyword body ev err :
  upgradeEvent_switch keyword body = Some (ev, err) -> is_invalid ev = false.
Proof.
  unfold upgradeEvent_switch. intros H.
  repeat first [progress unfold mbind, option_bind in H | case_match | progress simplify_eq/=];
    reflexivity.
Qed.

Lemma upgradeMultilineEvent_not_invalid_origin keyword body ev err :
  (if String.eqb keyword "" then
     Some (EvMalformed (NewMalformedEvent (Join body newlineSep)), None)
   else if String.eqb keyword clientEventKW then
     '(e, err) ← NewClientEvent body; Some (EvClient e, err)
   else Some (EvUnknown (NewUnknownEvent keyword (Join body newlineSep)), None))
  = Some (ev, err) -> is_invalid ev = false.
Proof.
  intros H.
  repeat first [progress unfold mbind, option_bind in H | case_match | progress simplify_eq/=];
    reflexivity.
Qed.

Lemma wrapInvalid_invalid ev err o e :
  is_invalid ev = false -> wrapInvalid (ev, err) = EvInvalid o e ->
  is_Some o /\ is_Some e.
Proof.
  destruct err as [x|]; cbn; intros Hev H.
  - injection H as <- <-. split; eexists; reflexivity.
  - subst ev. discriminate Hev.
Qed.

(** readCommandResponsePayload succeeds exactly when END arrives. *)
Lemma readCommandResponsePayload_err replies :
  snd (readCommandResponsePayload replies) = None <-> In endMessage replies.
Proof.
  induction replies as [|line rest IH]; cbn.
  - split; [discriminate | contradiction].
  - destruct (String.eqb_spec line endMessage) as [-> | Hne].
    + cbn. tauto.
    + destruct (readCommandResponsePayload rest) as [lines err]. cbn in *.
      rewrite IH. split; [tauto |]. intros [-> | Hin]; [congruence | exact Hin].
Qed.

(** ** Row partition of 'status 3' snapshots *)



(** ** Malformed events *)

Lemma upgradeEvent_malformed keyword body e :
  upgradeEvent keyword body = Some (EvMalformed e) ->
  keyword = "" /\ e = NewMalformedEvent body.
Proof.
  unfold upgradeEvent.
  destruct (upgradeEvent_switch keyword body) as [[ev [x|]]|] eqn:Hs; cbn; intros H;
    try discriminate.
  injection H as ->. unfold upgradeEvent_switch in Hs.
  repeat first [progress unfold mbind, option_bind in Hs | case_match | progress simplify_eq/=].
  split; [apply String.eqb_eq; assumption | reflexivity].
Qed.

Lemma index_colon_0 (line : string) :
  String.index 0 ":" line = Some 0 -> exists rest, line = String ":" rest.
Proof.
  intros H. apply String.index_correct1 in H. cbn in H.
  destruct line as [|c rest]; [discriminate |].
  cbn in H. injection H as -> _. eauto.
Qed.

(** ** Splitting at a one-character separator *)

Lemma str_app_nil (s : string) : "" ++ s = s.
Proof. reflexivity. Qed.

Lemma str_app_cons (d : ascii) (a s : string) : String d a ++ s = String d (a ++ s).
Proof. reflexivity. Qed.

Lemma str_length_app (a t : string) :
  String.length (a ++ t) = String.length a + String.length t.
Proof. induction a as [|d a IH]; [reflexivity|]. rewrite str_app_cons. cbn. now rewrite IH. Qed.

Lemma str_app_assoc (a b t : string) : a ++ (b ++ t) = (a ++ b) ++ t.
Proof. induction a as [|d a IH]; [reflexivity|]. rewrite !str_app_cons. now rewrite IH. Qed.

Lemma str_prefix_nil (s : string) : String.prefix "" s = true.
Proof. destruct s; reflexivity. Qed.

Lemma index_sep_cons (c d : ascii) (a : string) :
  String.index 0 (String c "") (String d a) =
  if ascii_dec c d then Some 0
  else match String.index 0 (String c "") a with Some n => Some (S n) | None => None end.
Proof.
  cbn. destruct (ascii_dec c d); [rewrite str_prefix_nil; reflexivity | reflexivity].
Qed.

Lemma index_sep_app (c : ascii) (a r : string) :
  Index a (String c "") = None ->
  Index (a ++ String c r) (String c "") = Some (String.length a).
Proof.
  unfold Index. induction a as [|d a IH]; intros H.
  - rewrite str_app_nil, index_sep_cons. destruct (ascii_dec c c); [reflexivity | congruence].
  - rewrite str_app_cons, index_sep_cons. rewrite index_sep_cons in H.
    destruct (ascii_dec c d); [discriminate|].
    destruct (String.index 0 (String c "") a) eqn:E; [discriminate|].
    rewrite IH by reflexivity. reflexivity.
Qed.

Lemma index_sep_decomp (c : ascii) (s : string) (m : nat) :
  Index s (String c "") = Some m ->
  exists a r, s = a ++ String c r /\ Index a (String c "") = None /\ String.length a = m.
Proof.
  unfold Index. revert m. induction s as [|d s IH]; intros m H.
  - discriminate.
  - rewrite index_sep_cons in H. destruct (ascii_dec c d) as [<-|Hne].
    + injection H as <-. exists "", s. split; [reflexivity|]. split; reflexivity.
    + destruct (String.index 0 (String c "") s) as [m'|] eqn:E; [|discriminate].
      injection H as <-. destruct (IH m' eq_refl) as (a & r & -> & Ha & Hl).
      exists (String d a), r. split; [reflexivity|]. split.
      * rewrite index_sep_cons. destruct (ascii_dec c d); [contradiction|]. now rewrite Ha.
      * cbn. now rewrite Hl.
Qed.

Lemma slice_to_app (a t : string) : slice_to (a ++ t) (String.length a) = a.
Proof.
  unfold slice_to. induction a as [|d a IH]; [rewrite str_app_nil; destruct t; reflexivity|].
  rewrite str_app_cons. cbn. now rewrite IH.
Qed.

Lemma slice_from_app (a t : string) : slice_from (a ++ t) (String.length a) = t.
Proof.
  unfold slice_from. induction a as [|d a IH].
  - rewrite str_app_nil. cbn. rewrite Nat.sub_0_r. apply substring_0_length.
  - rewrite str_app_cons. cbn. exact IH.
Qed.

Lemma slice_from_app_sep (c : ascii) (a r : string) :
  slice_from (a ++ String c r) (String.length a + 1) = r.
Proof.
  replace (a ++ String c r) with ((a ++ String c "") ++ r).
  - replace (String.length a + 1) with (String.length (a ++ String c "")).
    + apply slice_from_app.
    + rewrite str_length_app. cbn. lia.
  - rewrite <- str_app_assoc. reflexivity.
Qed.

Lemma genSplit_none (c : ascii) (s : string) (n : nat) :
  Index s (String c "") = None -> genSplit s (String c "") n = [s].
Proof. intros H. destruct n as [|[|n]]; cbn; try reflexivity. now rewrite H. Qed.

Lemma genSplit_cons (c : ascii) (a r : string) (n : nat) :
  Index a (String c "") = None ->
  genSplit (a ++ String c r) (String c "") (S (S n)) = a :: genSplit r (String c "") (S n).
Proof.
  intros H. cbn [genSplit]. rewrite index_sep_app by exact H.
  rewrite slice_to_app. cbn [String.length]. rewrite slice_from_app_sep. reflexivity.
Qed.

Lemma Join_cons2 (x y : string) (r : list string) (sep : string) :
  Join (x :: y :: r) sep = x ++ sep ++ Join (y :: r) sep.
Proof. reflexivity. Qed.

(** Splitting a join of separator-free fields. *)
Lemma genSplit_Join (c : ascii) (fs : list string) (m : nat) :
  fs <> [] -> Forall (fun f => Index f (String c "") = None) fs ->
  genSplit (Join fs (String c "")) (String c "") (S m) =
  if Nat.leb (length fs) (S m) then fs
  else (take m fs ++ [Join (drop m fs) (String c "")])%list.
Proof.
  revert m. induction fs as [|x [|y r] IH]; intros m Hne Hall; [congruence| |].
  - cbn [Join]. inversion Hall; subst. rewrite genSplit_none by assumption.
    destruct m; reflexivity.
  - inversion Hall as [|? ? Hx Hr]; subst. rewrite Join_cons2.
    destruct m as [|m].
    + reflexivity.
    + rewrite (str_app_cons c "" (Join (y :: r) (String c ""))), str_app_nil.
      rewrite genSplit_cons by assumption. rewrite IH by (congruence || assumption).
      cbn [length Nat.leb take drop app]. destruct (length r <=? m)%nat; reflexivity.
Qed.

Lemma genSplit_SS (s sep : string) (n : nat) :
  genSplit s sep (S (S n)) =
  match Index s sep with
  | None => [s]
  | Some m => slice_to s m :: genSplit (slice_from s (m + String.length sep)) sep (S n)
  end.
Proof. reflexivity. Qed.

Lemma genSplit_nonempty (s sep : string) (n : nat) : genSplit s sep n <> [].
Proof.
  revert s. induction n as [|[|n] IH]; intros s; cbn; try congruence.
  destruct (Index s sep); congruence.
Qed.

Lemma Join_cons_nonempty (x : string) (l : list string) (sep : string) :
  l <> [] -> Join (x :: l) sep = x ++ sep ++ Join l sep.
Proof. destruct l; [congruence|reflexivity]. Qed.

(** Joining the pieces of a split gives back the string. *)
Lemma Join_genSplit (c : ascii) (s : string) (n : nat) :
  Join (genSplit s (String c "") n) (String c "") = s.
Proof.
  revert s. induction n as [|[|n] IH]; intros s; try reflexivity.
  destruct (Index s (String c "")) as [m|] eqn:E; [|rewrite genSplit_none; auto].
  destruct (index_sep_decomp c s m E) as (a & r & -> & Ha & <-).
  rewrite genSplit_cons by exact Ha.
  rewrite Join_cons_nonempty by apply genSplit_nonempty. rewrite IH. reflexivity.
Qed.

Lemma genSplit_length (s sep : string) (n : nat) : length (genSplit s sep n) <= Nat.max 1 n.
Proof.
  revert s. induction n as [|[|n] IH]; intros s; [cbn; lia|cbn; lia|].
  rewrite genSplit_SS. destruct (Index s sep) as [m|]; cbn [length]; [|lia].
  specialize (IH (slice_from s (m + String.length sep))). lia.
Qed.

(** Fuel beyond the length of the string does not change a split. *)
Lemma genSplit_fuel (c : ascii) (s : string) (n m : nat) :
  String.length s < n -> String.length s < m ->
  genSplit s (String c "") n = genSplit s (String c "") m.
Proof.
  revert s m. induction n as [n IH] using lt_wf_ind. intros s m Hn Hm.
  destruct (Index s (String c "")) as [k|] eqn:E.
  - destruct (index_sep_decomp c s k E) as (a & r & -> & Ha & <-).
    rewrite str_length_app in Hn, Hm. cbn [String.length] in Hn, Hm.
    destruct n as [|[|n]]; [lia|lia|]. destruct m as [|[|m]]; [lia|lia|].
    rewrite !genSplit_cons by assumption. f_equal. apply IH; lia.
  - rewrite !genSplit_none by assumption. reflexivity.
Qed.

(** ** strconv reads back what strconv.Itoa writes *)

Lemma uval_acc (d : Decimal.uint) (p : positive) :
  Z.pos (Pos.of_uint_acc d p) = uval d (Z.pos p).
Proof.
  revert p. induction d; intros p; cbn [Pos.of_uint_acc uval]; try reflexivity;
    rewrite IHd; f_equal; lia.
Qed.

Lemma uval_of_uint (d : Decimal.uint) : Z.of_N (Pos.of_uint d) = uval d 0.
Proof.
  induction d; cbn [Pos.of_uint uval]; try reflexivity;
    [exact IHd | cbn [Z.of_N]; rewrite uval_acc; reflexivity ..].
Qed.

Lemma uval_ge (d : Decimal.uint) (acc : Z) : (0 <= acc)%Z -> (acc <= uval d acc)%Z.
Proof.
  revert acc. induction d; intros acc Hacc; cbn [uval]; try lia;
    match goal with |- (_ <= uval ?l ?x)%Z => specialize (IHd x); lia end.
Qed.

Lemma parseUintLoop_uval (d : Decimal.uint) (acc : Z) :
  (0 <= acc)%Z -> (uval d acc <= maxUint64)%Z ->
  parseUintLoop (NilEmpty.string_of_uint d) acc = (uval d acc, None).
Proof.
  revert acc. induction d; intros acc Hacc Hmax; [reflexivity| ..];
  cbn [NilEmpty.string_of_uint uval parseUintLoop] in *;
  match goal with |- context [uval ?l ?x] =>
    pose proof (uval_ge l x ltac:(lia)) end;
  assert (acc <= maxUint64 / 10)%Z by (apply Z.div_le_lower_bound; lia);
  (replace (acc >=? maxUint64 / 10 + 1)%Z with false by (symmetry; rewrite Z.geb_leb; apply Z.leb_gt; lia));
  repeat match goal with
    | |- context [digit_val ?c] => let v := eval vm_compute in (digit_val c) in change (digit_val c) with v
    | |- context [is_digit ?c] => let v := eval vm_compute in (is_digit c) in change (is_digit c) with v
    end;
  cbn -[maxUint64 parseUintLoop uval];
  try rewrite Z.add_0_r;
  match goal with |- context [(?x >? maxUint64)%Z] =>
    replace (x >? maxUint64)%Z with false by (symmetry; rewrite Z.gtb_ltb; apply Z.ltb_ge; lia) end;
  apply IHd; lia.
Qed.

Lemma to_uint_not_nil (p : positive) : Pos.to_uint p <> Decimal.Nil.
Proof. intros H. pose proof (DecimalPos.Unsigned.of_to p) as E. rewrite H in E. discriminate. Qed.

Lemma uval_to_uint (p : positive) : uval (Pos.to_uint p) 0 = Z.pos p.
Proof. rewrite <- uval_of_uint, DecimalPos.Unsigned.of_to. reflexivity. Qed.

Lemma ParseUint10_uval (u : Decimal.uint) :
  u <> Decimal.Nil -> (uval u 0 <= maxUint64)%Z ->
  ParseUint10 (NilEmpty.string_of_uint u) = (uval u 0, None).
Proof.
  intros Hu Hmax. unfold ParseUint10.
  replace (String.eqb (NilEmpty.string_of_uint u) "") with false
    by (destruct u; [contradiction|reflexivity ..]).
  apply parseUintLoop_uval; lia.
Qed.

(** strconv's parsers read back what strconv.Itoa writes. *)
Lemma parseIntAs_Itoa (fn : string) (n : Z) :
  (- 2 ^ 63 <= n < 2 ^ 63)%Z -> parseIntAs fn (Itoa n) = (n, None).
Proof.
  intros Hn. destruct n as [|p|p]; [reflexivity| |].
  - unfold Itoa. cbn [Z.to_int NilEmpty.string_of_int].
    pose proof (ParseUint10_uval (Pos.to_uint p) (to_uint_not_nil p)) as HP.
    rewrite uval_to_uint in HP. specialize (HP ltac:(unfold maxUint64; lia)).
    pose proof (to_uint_not_nil p) as Hnil.
    destruct (Pos.to_uint p) eqn:Eu; [contradiction| ..];
      cbn [NilEmpty.string_of_uint] in HP; unfold parseIntAs; cbn -[ParseUint10]; rewrite HP;
      (replace (Z.pos p >=? 2 ^ 63)%Z with false by (symmetry; rewrite Z.geb_leb; apply Z.leb_gt; lia));
      reflexivity.
  - unfold Itoa. cbn [Z.to_int NilEmpty.string_of_int].
    pose proof (ParseUint10_uval (Pos.to_uint p) (to_uint_not_nil p)) as HP.
    rewrite uval_to_uint in HP. specialize (HP ltac:(unfold maxUint64; lia)).
    unfold parseIntAs. cbn -[ParseUint10]. rewrite HP. cbn -[Z.pow].
    replace (Z.pos p >? 2 ^ 63)%Z with false by (symmetry; rewrite Z.gtb_ltb; apply Z.ltb_ge; lia).
    reflexivity.
Qed.

(** ** Fixed-width splits of joined fields, and integers written by strconv.Itoa *)

Lemma sep_app (c : ascii) (r : string) : String c "" ++ r = String c r.
Proof. reflexivity. Qed.


Lemma SplitN_pos (s sep : string) (n : Z) :
  (0 < n)%Z -> SplitN s sep n = genSplit s sep (Z.to_nat n).
Proof.
  intros Hn. unfold SplitN.
  destruct (Z.eqb_spec n 0); [lia|]. destruct (Z.ltb_spec n 0); [lia|]. reflexivity.
Qed.

Lemma stringsSplitNK_pad (s sep : string) (n k : Z) :
  (0 <= k)%Z ->
  stringsSplitNK s sep n k =
  (SplitN s sep n ++ replicate (Z.to_nat k - length (SplitN s sep n)) "")%list.
Proof.
  intros Hk. unfold stringsSplitNK.
  destruct (Z.leb_spec k (Z.of_nat (length (SplitN s sep n)))); [|reflexivity].
  replace (Z.to_nat k - length (SplitN s sep n)) with 0 by lia.
  rewrite app_nil_r. reflexivity.
Qed.

Lemma genSplit_3 (c : ascii) (a b r : string) :
  Index a (String c "") = None -> Index b (String c "") = None ->
  genSplit (a ++ String c "" ++ b ++ String c "" ++ r) (String c "") 3 = [a; b; r].
Proof.
  intros Ha Hb. rewrite !sep_app, genSplit_cons by exact Ha.
  rewrite genSplit_cons by exact Hb. reflexivity.
Qed.

Lemma genSplit_2 (c : ascii) (a r : string) :
  Index a (String c "") = None ->
  genSplit (a ++ String c "" ++ r) (String c "") 2 = [a; r].
Proof. intros Ha. rewrite !sep_app, genSplit_cons by exact Ha. reflexivity. Qed.


Lemma stringsSplitNK_3 (c : ascii) (a b r : string) :
  Index a (String c "") = None -> Index b (String c "") = None ->
  stringsSplitNK (a ++ String c "" ++ b ++ String c "" ++ r) (String c "") 3 3 = [a; b; r].
Proof.
  intros Ha Hb. rewrite stringsSplitNK_pad, SplitN_pos by lia.
  change (Z.to_nat 3) with 3. rewrite genSplit_3 by assumption. reflexivity.
Qed.

Lemma stringsSplitNK_2 (c : ascii) (a r : string) :
  Index a (String c "") = None ->
  stringsSplitNK (a ++ String c "" ++ r) (String c "") 2 2 = [a; r].
Proof.
  intros Ha. rewrite stringsSplitNK_pad, SplitN_pos by lia.
  change (Z.to_nat 2) with 2. rewrite genSplit_2 by assumption. reflexivity.
Qed.

Lemma stringsSplitNK_Join (c : ascii) (fs : list string) (n k : Z) :
  fs <> [] -> Forall (fun f => Index f (String c "") = None) fs -> (0 < n)%Z -> (0 <= k)%Z ->
  stringsSplitNK (Join fs (String c "")) (String c "") n k =
  let parts := if Nat.leb (length fs) (Z.to_nat n) then fs
               else (take (Z.to_nat n - 1) fs ++ [Join (drop (Z.to_nat n - 1) fs) (String c "")])%list in
  (parts ++ replicate (Z.to_nat k - length parts) "")%list.
Proof.
  intros Hne Hall Hn Hk. rewrite stringsSplitNK_pad, SplitN_pos by lia.
  destruct (Z.to_nat n) as [|m] eqn:E; [lia|].
  rewrite genSplit_Join by assumption. rewrite Nat.sub_succ, Nat.sub_0_r. reflexivity.
Qed.

Lemma string_of_uint_no_sep (c : ascii) (u : Decimal.uint) :
  is_digit c = false -> Index (NilEmpty.string_of_uint u) (String c "") = None.
Proof.
  intros Hc. unfold Index. induction u; [reflexivity| ..];
    cbn [NilEmpty.string_of_uint]; rewrite index_sep_cons, IHu;
    (destruct (ascii_dec c _) as [E|]; [subst c; discriminate Hc|reflexivity]).
Qed.

Lemma Itoa_no_sep (c : ascii) (n : Z) :
  is_digit c = false -> c <> "-"%char -> Index (Itoa n) (String c "") = None.
Proof.
  intros Hc Hm. unfold Itoa. destruct n as [|p|p]; cbn [Z.to_int NilEmpty.string_of_int].
  - unfold Index. cbn. destruct (ascii_dec c "0"); [subst; discriminate|reflexivity].
  - apply string_of_uint_no_sep, Hc.
  - unfold Index. rewrite index_sep_cons. destruct (ascii_dec c "-"); [contradiction|].
    fold (Index (NilEmpty.string_of_uint (Pos.to_uint p)) (String c "")).
    rewrite string_of_uint_no_sep by exact Hc. reflexivity.
Qed.

Lemma Itoa_no_comma (n : Z) : Index (Itoa n) fieldSep = None.
Proof. apply Itoa_no_sep; [reflexivity | discriminate]. Qed.


Lemma ParseInt_Itoa (n : Z) : int64_range n -> ParseInt (Itoa n) = (n, None).
Proof. apply parseIntAs_Itoa. Qed.


Lemma Atoi_Itoa (n : Z) : int64_range n -> Atoi (Itoa n) = (n, None).
Proof. apply parseIntAs_Itoa. Qed.


Lemma padded_state_lookup (sep : string) (fs : list string) (i : nat) :
  i < 5 ->
  let parts := if Nat.leb (length fs) 9 then fs
               else (take 8 fs ++ [Join (drop 8 fs) sep])%list in
  (parts ++ replicate (5 - length parts) "")%list !! i = Some (default "" (fs !! i)).
Proof.
  intros Hi parts. subst parts. destruct (Nat.leb_spec (length fs) 9) as [Hle|Hgt].
  - destruct (decide (i < length fs)) as [Hlt|Hge].
    + rewrite lookup_app_l by exact Hlt.
      destruct (lookup_lt_is_Some_2 fs i Hlt) as [x Hx]. rewrite Hx. reflexivity.
    + rewrite lookup_app_r by lia. rewrite lookup_replicate_2 by lia.
      rewrite (lookup_ge_None_2 fs i) by lia. reflexivity.
  - rewrite lookup_app_l by (rewrite length_app, length_take; cbn [length]; lia).
    rewrite lookup_app_l by (rewrite length_take; lia).
    rewrite lookup_take; rewrite ?decide_True by lia.
    destruct (lookup_lt_is_Some_2 fs i ltac:(lia)) as [x Hx]. rewrite Hx. reflexivity.
Qed.

(** ** CLIENT notifications: the header and the ENV lines *)

Ltac open_split_lookups_in H :=
  repeat match type of H with
  | context [stringsSplitNK ?s ?sep ?n ?k !! ?i] =>
      let p := fresh "p" in
      let Hp := fresh "Hp" in
      destruct (stringsSplitNK_lookup s sep n k i) as [p Hp]; [lia |];
      rewrite Hp in H; cbn [mbind option_bind] in H
  end.


Lemma parseNotification_known (s : string) : parseNotification s <> Some CEUnknown.
Proof. unfold parseNotification. repeat case_match; discriminate. Qed.


Lemma str_prefix_app (p x : string) : String.prefix p (p ++ x) = true.
Proof.
  induction p as [|d p IH]; [apply str_prefix_nil|].
  rewrite str_app_cons. cbn. destruct (ascii_dec d d); [exact IH|congruence].
Qed.

Lemma envLine_step (kv : string * string) (rest : list string) (m : gmap string string) :
  Index kv.1 clientEnvKVSep = None ->
  clientEnvLoop (envLine kv :: rest) m = clientEnvLoop rest (<[kv.1 := kv.2]> m).
Proof.
  intros Hk. unfold envLine. cbn [clientEnvLoop].
  rewrite (str_app_assoc clientEnvMarker fieldSep).
  unfold HasPrefix. rewrite str_prefix_app. cbn [negb].
  rewrite slice_from_app. unfold clientEnvKVSep in *.
  rewrite stringsSplitNK_2 by exact Hk. reflexivity.
Qed.

Lemma clientEnvLoop_envLines (kvs : list (string * string)) (rest : list string)
    (m : gmap string string) :
  Forall (fun kv => Index kv.1 clientEnvKVSep = None) kvs ->
  clientEnvLoop (map envLine kvs ++ rest) m = clientEnvLoop rest (envsOf kvs m).
Proof.
  revert m. induction kvs as [|kv kvs IH]; intros m Hall; [reflexivity|].
  inversion Hall as [|? ? Hkv Hrest]; subst.
  cbn [map app]. rewrite envLine_step by exact Hkv. apply IH, Hrest.
Qed.

Lemma stringsSplitNK_fields3 (a b c : string) :
  Index a fieldSep = None -> Index b fieldSep = None -> Index c fieldSep = None ->
  stringsSplitNK (a ++ fieldSep ++ b ++ fieldSep ++ c) fieldSep 4 4 = [a; b; c; ""].
Proof.
  intros Ha Hb Hc.
  change (a ++ fieldSep ++ b ++ fieldSep ++ c) with (Join [a; b; c] (String "," "")).
  rewrite stringsSplitNK_Join by (repeat constructor; assumption || lia || discriminate).
  reflexivity.
Qed.

Lemma stringsSplitNK_fields2 (a b : string) :
  Index a fieldSep = None -> Index b fieldSep = None ->
  stringsSplitNK (a ++ fieldSep ++ b) fieldSep 4 4 = [a; b; ""; ""].
Proof.
  intros Ha Hb.
  change (a ++ fieldSep ++ b) with (Join [a; b] (String "," "")).
  rewrite stringsSplitNK_Join by (repeat constructor; assumption || lia || discriminate).
  reflexivity.
Qed.

Lemma stringsSplitNK_fields4 (a b c d : string) :
  Index a fieldSep = None -> Index b fieldSep = None -> Index c fieldSep = None ->
  stringsSplitNK (a ++ fieldSep ++ b ++ fieldSep ++ c ++ fieldSep ++ d) fieldSep 4 4 = [a; b; c; d].
Proof.
  intros Ha Hb Hc. rewrite stringsSplitNK_pad, SplitN_pos by lia.
  change (Z.to_nat 4) with 4. unfold fieldSep in *. rewrite !sep_app.
  rewrite genSplit_cons by exact Ha. rewrite genSplit_cons by exact Hb.
  rewrite genSplit_cons by exact Hc. reflexivity.
Qed.

(** ** The command channel *)

Lemma rcrp_END (pre post : list string) :
  Forall (fun l => l <> endMessage) pre ->
  readCommandResponsePayload (pre ++ endMessage :: post) = (pre, None).
Proof.
  induction pre as [|l pre IH]; intros Hall; [reflexivity|].
  inversion Hall as [|? ? Hl Hrest]; subst.
  cbn [app readCommandResponsePayload].
  destruct (String.eqb_spec l endMessage) as [E|_]; [contradiction|].
  rewrite (IH Hrest). reflexivity.
Qed.

Lemma rcrp_closed (pre : list string) :
  Forall (fun l => l <> endMessage) pre ->
  readCommandResponsePayload pre =
    (pre, Some (ErrorString "connection closed before END recieved")).
Proof.
  induction pre as [|l pre IH]; intros Hall; [reflexivity|].
  inversion Hall as [|? ? Hl Hrest]; subst. cbn [readCommandResponsePayload].
  destruct (String.eqb_spec l endMessage) as [E|_]; [contradiction|].
  rewrite (IH Hrest). reflexivity.
Qed.

Lemma HasPrefix_app (p x : string) : HasPrefix (p ++ x) p = true.
Proof. unfold HasPrefix. apply str_prefix_app. Qed.


Lemma readCommandResult_success (m : string) (rest : list string) :
  readCommandResult ((successPrefix ++ m) :: rest) = (m, None).
Proof. unfold readCommandResult. rewrite HasPrefix_app, slice_from_app. reflexivity. Qed.


Lemma readCommandResult_error (m : string) (rest : list string) :
  readCommandResult ((errorPrefix ++ m) :: rest) = ("", Some (OVpnError m)).
Proof.
  unfold readCommandResult. rewrite HasPrefix_app.
  unfold successPrefix, errorPrefix at 1. cbn. rewrite slice_from_app. reflexivity.
Qed.

(** ** What the event factory keeps of a line *)

Lemma wrapInvalid_kept (r : Event * option error) :
  (forall e, wrapInvalid r = EvSimple e -> r = (EvSimple e, None)) /\
  (forall e, wrapInvalid r = EvUnknown e -> r = (EvUnknown e, None)) /\
  (forall h, wrapInvalid r = EvHold h -> r = (EvHold h, None)).
Proof. destruct r as [ev [err|]]; cbn; repeat split; intros; subst; congruence. Qed.


Lemma upgradeEvent_kept (kw body : string) (ev : Event) :
  upgradeEvent kw body = Some ev ->
  (forall e, ev = EvSimple e -> e = NewSimpleEvent kw body) /\
  (forall e, ev = EvUnknown e -> e = NewUnknownEvent kw body) /\
  (forall h, ev = EvHold h -> kw = holdEventKW /\ h = NewHoldEvent body).
Proof.
  unfold upgradeEvent. intros Hu. apply bind_Some in Hu. destruct Hu as [r [Hs Hr]].
  injection Hr as <-. destruct (wrapInvalid_kept r) as (W1 & W2 & W3).
  split; [|split]; intros x Hx; [apply W1 in Hx | apply W2 in Hx | apply W3 in Hx];
    subst r; unfold upgradeEvent_switch in Hs;
    repeat match type of Hs with
    | context [String.eqb ?a ?b] => let E := fresh "E" in destruct (String.eqb_spec a b) as [E|E]; cbn in Hs
    | context [existsb ?f ?l] => destruct (existsb f l); cbn in Hs
    | context [NewEchoEvent ?b] => destruct (NewEchoEvent b); cbn in Hs
    | (?m ≫= _) = Some _ => apply bind_Some in Hs; destruct Hs as [[? ?] [_ Hs]]; cbn in Hs
    end; simplify_eq/=; auto.
Qed.

Lemma splitEvent_parts (line : string) (m : eventEndMarker) (kw body : string) :
  splitEvent line = (m, kw, body) ->
  (Index line eventSep = None /\ kw = "" /\ body = line) \/
  (line = kw ++ eventSep ++ body /\ Index kw eventSep = None).
Proof.
  unfold splitEvent. destruct (Index line eventSep) as [i|] eqn:Ei.
  - destruct (index_sep_decomp ":" line i Ei) as (a & r & -> & Ha & <-).
    rewrite slice_to_app, slice_from_app_sep.
    intros H; right; destruct (_ && _); injection H as <- <- <-; (split; [reflexivity | exact Ha]).
  - intros H; injection H as <- <- <-. left. auto.
Qed.

(** ** net.ParseIP returns 16 bytes *)

Lemma parseIPv4_go_length (s : string) (i fuel : nat) (acc p : list Z) :
  parseIPv4_go s i fuel acc = Some p -> length p = length acc + fuel.
Proof.
  revert s i acc. induction fuel as [|f IH]; intros s i acc H; cbn [parseIPv4_go] in H.
  - destruct (String.eqb s ""); [injection H as <-; lia | discriminate].
  - destruct (String.eqb s ""); [discriminate|].
    apply bind_Some in H. destruct H as [s1 [_ H]].
    destruct (dtoi s1) as [[n c] ok]. repeat case_match; try discriminate.
    apply IH in H. rewrite length_app in H. cbn in H. lia.
Qed.

Lemma parseIPv4_length (s : string) (ip : IP) : parseIPv4 s = Some ip -> length ip = 16.
Proof.
  unfold parseIPv4. intros H. apply bind_Some in H. destruct H as [p [Hp H]].
  injection H as <-. apply parseIPv4_go_length in Hp. cbn [length] in *. lia.
Qed.

Lemma parseIPv6_go_length (s : string) (acc : list Z) (ell : option nat) (fuel : nat)
    (s' : string) (acc' : list Z) (ell' : option nat) :
  parseIPv6_go s acc ell fuel = Some (s', acc', ell') ->
  length acc <= 16 -> Nat.Even (length acc) -> (forall e, ell = Some e -> e <= length acc) ->
  length acc' <= 16 /\ (forall e, ell' = Some e -> e <= length acc').
Proof.
  revert s acc ell. induction fuel as [|f IH]; intros s acc ell H Hl Hev He;
    cbn [parseIPv6_go] in H.
  - injection H as <- <- <-. auto.
  - destruct (Nat.leb_spec 16 (length acc)); [injection H as <- <- <-; auto|].
    destruct (xtoi s) as [[n c] ok].
    destruct (negb ok || (n >? 65535)%Z); [discriminate|].
    destruct (Nat.ltb c (String.length s) && first_char_is (slice_from s c) "."%char).
    + destruct (bool_decide (ell = None) && negb (Nat.eqb (length acc) 12)); [discriminate|].
      destruct (Nat.ltb_spec 16 (length acc + 4)); [discriminate|].
      apply bind_Some in H. destruct H as [ip4 [Hip H]]. injection H as <- <- <-.
      apply parseIPv4_length in Hip. rewrite length_app, length_drop, Hip.
      split; [lia|]. intros e Hs. specialize (He e Hs). lia.
    + assert (Hle : length acc <= 14) by (destruct Hev as [k Hk]; lia).
      assert (Hl2 : length (acc ++ [Z.shiftr n 8; Z.land n 255])%list = length acc + 2)
        by (rewrite length_app; reflexivity).
      assert (Hev2 : Nat.Even (length (acc ++ [Z.shiftr n 8; Z.land n 255])%list))
        by (rewrite Hl2; destruct Hev as [k Hk]; exists (S k); lia).
      repeat case_match; simplify_eq/=.
      * split; [lia|]. intros e Hs. specialize (He e Hs). lia.
      * split; [lia|]. intros e Hs. injection Hs as <-. lia.
      * eapply IH; [eassumption | lia | exact Hev2 | intros e Hs; injection Hs as <-; lia].
      * eapply IH; [eassumption | lia | exact Hev2 | intros e Hs; specialize (He e Hs); lia].
Qed.

Lemma parseIPv6_length (s : string) (ip : IP) : parseIPv6 s = Some ip -> length ip = 16.
Proof.
  unfold parseIPv6. intros H.
  destruct (if Nat.leb 2 (String.length s) && String.prefix "::" s then _ else _)
    as [[s0 ell] early] eqn:Ei.
  assert (Hell : forall e, ell = Some e -> e <= 0).
  { intros e He. destruct (_ && _); injection Ei as _ <- _; [injection He as <-|]; easy. }
  clear Ei. destruct early; [injection H as <-; reflexivity|].
  apply bind_Some in H. destruct H as [[[s' acc] ell'] [Hgo H]].
  apply parseIPv6_go_length in Hgo as [Hl He];
    [| cbn; lia | exists 0; reflexivity | exact Hell].
  destruct (negb (String.eqb s' "")); [discriminate|].
  destruct (Nat.ltb_spec (length acc) 16).
  - destruct ell' as [e|]; [|discriminate]. injection H as <-. specialize (He e eq_refl).
    rewrite !length_app, length_take, length_replicate, length_drop. lia.
  - destruct ell'; [discriminate|]. injection H as <-. lia.
Qed.

Lemma ParseIP_length (s : string) (ip : IP) : ParseIP s = Some ip -> length ip = 16.
Proof.
  unfold ParseIP. generalize s at 1 as s0. intros s0.
  induction s as [|c r IH]; cbn [ParseIP_scan]; [discriminate|].
  destruct (Ascii.eqb c "."%char); [apply parseIPv4_length|].
  destruct (Ascii.eqb c ":"%char); [apply parseIPv6_length | exact IH].
Qed.

(** ** 'status 3' lines and rows *)

Lemma Split_cons (c : ascii) (a x : string) :
  Index a (String c "") = None ->
  Split (a ++ String c x) (String c "") = a :: Split x (String c "").
Proof.
  intros Ha. unfold Split, SplitN. cbn -[genSplit String.append].
  rewrite str_length_app. cbn [String.length].
  replace (S (String.length a + S (String.length x))) with (S (S (String.length a + String.length x))) by lia.
  rewrite genSplit_cons by exact Ha. f_equal. apply genSplit_fuel; lia.
Qed.

Lemma Split_none (c : ascii) (x : string) :
  Index x (String c "") = None -> Split x (String c "") = [x].
Proof. intros Hx. unfold Split, SplitN. cbn -[genSplit]. apply genSplit_none, Hx. Qed.


Lemma Join_Split (c : ascii) (x : string) : Join (Split x (String c "")) (String c "") = x.
Proof. unfold Split, SplitN. cbn -[genSplit]. apply Join_genSplit. Qed.


Lemma padFields_lookup (fs : list string) (k i : nat) :
  i < k -> padFields fs k !! i = Some (default "" (fs !! i)).
Proof.
  intros Hi. unfold padFields. destruct (Nat.ltb_spec (length fs) k).
  - destruct (decide (i < length fs)).
    + rewrite lookup_app_l by lia. destruct (lookup_lt_is_Some_2 fs i) as [x Hx]; [lia|].
      rewrite Hx. reflexivity.
    + rewrite lookup_app_r by lia. rewrite lookup_replicate_2 by lia.
      rewrite lookup_ge_None_2 by lia. reflexivity.
  - destruct (lookup_lt_is_Some_2 fs i) as [x Hx]; [lia|]. rewrite Hx. reflexivity.
Qed.

Lemma appendErr_omap (l : list (option error)) (errs : list error) :
  foldl appendErr errs l = (errs ++ omap id l)%list.
Proof.
  revert errs. induction l as [|o l IH]; intros errs; cbn; [by rewrite app_nil_r|].
  rewrite IH. destruct o; cbn; [by rewrite <- app_assoc | reflexivity].
Qed.

(** ** The scanner on complete events *)

Lemma scanLines_cons (st : ScanState) (raw : string) (rest : list string) :
  scanLines st (raw :: rest) =
  '(es, st') ← scanStep st raw; '(es', st'') ← scanLines st' rest; Some ((es ++ es')%list, st'').
Proof. reflexivity. Qed.


Lemma scanLines_block (st : ScanState) (b : string) (bs : list string) :
  scan_inv st -> forallb clientContinuation (b :: bs) = true ->
  scanLines st (map (fun x => ("CLIENT:" ++ x)%string) (b :: bs)) =
  Some ([], {| bufKW := clientEventKW; buf := (buf st ++ b :: bs)%list |}).
Proof.
  revert st b. induction bs as [|b' bs IH]; intros st b Hinv Hall;
    cbn [forallb] in Hall; apply andb_true_iff in Hall as [Hb Hrest].
  - cbn [map scanLines]. rewrite (scanStep_continuation st b Hinv Hb). reflexivity.
  - rewrite map_cons, scanLines_cons, (scanStep_continuation st b Hinv Hb). cbn [mbind option_bind].
    rewrite IH; [| right; split; [reflexivity | cbn; destruct (buf st); discriminate] | exact Hrest].
    cbn. rewrite <- app_assoc. reflexivity.
Qed.

Lemma scanLines_item (it : LaneItem) :
  item_ok it = true ->
  exists ev, item_event it = Some ev /\ scanLines scanIdle (item_lines it) = Some ([ev], scanIdle).
Proof.
  destruct it as [raw | bodies]; cbn [item_ok item_event item_lines].
  - destruct (splitEvent raw) as [[em kw] body] eqn:Hs. intros Hem.
    unfold eventOfLine. rewrite Hs.
    destruct (upgradeEvent_total kw body) as [e He]. exists e. split; [exact He|].
    rewrite scanLines_cons. unfold scanStep. rewrite Hs, Hem, He. reflexivity.
  - intros Hok. apply andb_true_iff in Hok as [Hne Hall].
    destruct bodies as [|b bs]; [discriminate|].
    destruct (upgradeMultilineEvent_total clientEventKW (b :: bs)) as [f Hf]; [congruence|].
    exists f. split; [exact Hf|].
    rewrite scanLines_app, (scanLines_block scanIdle b bs scan_inv_idle Hall).
    cbn [mbind option_bind]. rewrite scanLines_cons.
    assert (Hs : splitEvent emClient = (emClient, clientEventKW, "ENV,END")) by reflexivity.
    unfold scanStep. rewrite Hs. cbn -[upgradeMultilineEvent]. unfold flushMultilineBuf. cbn -[upgradeMultilineEvent].
    rewrite Hf. reflexivity.
Qed.

Lemma scanLines_items (items : list LaneItem) :
  forallb item_ok items = true ->
  exists evs, mapM item_event items = Some evs /\
    scanLines scanIdle (concat (map item_lines items)) = Some (evs, scanIdle).
Proof.
  induction items as [|it items IH]; intros Hall; [exists []; split; reflexivity|].
  cbn [forallb] in Hall. apply andb_true_iff in Hall as [Hit Hrest].
  destruct (scanLines_item it Hit) as (ev & Hev & Hl).
  destruct (IH Hrest) as (evs & Hm & Hls).
  exists (ev :: evs). split.
  - cbn. rewrite Hev, Hm. reflexivity.
  - cbn [map concat]. rewrite scanLines_app, Hl. cbn [mbind option_bind].
    rewrite Hls. reflexivity.
Qed.

(** ** Rows of a 'status 3' snapshot, whatever the loop returns *)





(** * Claims *)

(** C1 (code_bug). Parsing never panics on the event path: every raw line
    run through splitEvent and upgradeEvent, every (keyword, body) pair, and
    every sequence of lines fed to the event scanner yields events. The
    'status 3' payload parser does panic: on the payload ["TIME"] it reads
    lineFields[0] of an empty slice (index out of range). *)
Theorem C1_event_path_total_status3_panics :
  (forall line, exists e, eventOfLine line = Some e) /\
  (forall keyword body, exists e, upgradeEvent keyword body = Some e) /\
  (forall lines, exists d, eventScanner lines = Some d) /\
  NewStatus3Event ["TIME"] = None.
Proof.
  split; [| split; [| split]].
  - intros line. unfold eventOfLine. destruct (splitEvent line) as [[? kw] body].
    apply upgradeEvent_total.
  - intros keyword body. apply upgradeEvent_total.
  - intros lines. unfold eventScanner.
    destruct (scanLines_inv scanIdle lines scan_inv_idle) as (es & st & -> & _).
    cbn. eauto.
  - reflexivity.
Qed.

(** C2 (corrected). When the event lane closes, the scanner closes the
    delivery lane at once: an open multi-line buffer is discarded, not
    flushed. Appending any unterminated run of CLIENT continuation lines to
    a line sequence adds nothing to what is delivered. *)
Theorem C2_close_discards_open_buffer (lines bodies : list string) :
  forallb clientContinuation bodies = true ->
  eventScanner (lines ++ map (fun b => ("CLIENT:" ++ b)%string) bodies)%list = eventScanner lines.
Proof.
  intros Hb. unfold eventScanner. rewrite scanLines_app.
  destruct (scanLines_inv scanIdle lines scan_inv_idle) as (es & st & -> & Hinv).
  cbn [mbind option_bind].
  destruct (scanLines_continuations st bodies Hinv Hb) as (st' & -> & _).
  cbn. now rewrite app_nil_r.
Qed.

Lemma C2_witness :
  forallb clientContinuation ["CONNECT,7,2"; "ENV,foo=bar"] = true /\
  eventScanner ([] ++ map (fun b => ("CLIENT:" ++ b)%string) ["CONNECT,7,2"; "ENV,foo=bar"])%list
  = eventScanner [].
Proof.
  split; [reflexivity |].
  apply (C2_close_discards_open_buffer [] ["CONNECT,7,2"; "ENV,foo=bar"]). reflexivity.
Defined.

(** C2 counterexample: a CONNECT block whose ENV,END never arrives before
    the lane closes; the scanner delivers nothing but the close. *)
Lemma C2_counterexample :
  eventScanner ["CLIENT:CONNECT,7,2"; "CLIENT:ENV,foo=bar"] = Some [CloseSink].
Proof. vm_compute. reflexivity. Qed.

(** C3 (corrected). Every InvalidEvent built by the event factory
    (upgradeEvent, upgradeMultilineEvent) carries an origin event and an
    error. The one built by the status poller (generateStatus3Event) always
    carries an error, but its origin is a nil *Status3Event exactly when
    the 'status 3' write fails or the reply lane closes before END. *)
Theorem C3_invalid_origin_and_error :
  (forall keyword body o err,
     upgradeEvent keyword body = Some (EvInvalid o err) -> is_Some o /\ is_Some err) /\
  (forall keyword body o err,
     upgradeMultilineEvent keyword body = Some (EvInvalid o err) -> is_Some o /\ is_Some err) /\
  (forall t o err,
     generateStatus3Event t = Some (EvInvalid o err) ->
     is_Some err /\
     (o = None <-> writeErr t <> None \/ ~ In endMessage (replyLane t))).
Proof.
  split; [| split].
  - intros keyword body o err. unfold upgradeEvent.
    destruct (upgradeEvent_switch keyword body) as [[ev e]|] eqn:Hsw; cbn; [| discriminate].
    intros H. injection H as H.
    exact (wrapInvalid_invalid ev e o err (upgradeEvent_switch_not_invalid _ _ _ _ Hsw) H).
  - intros keyword body o err. unfold upgradeMultilineEvent.
    match goal with |- context [?m ≫= _] => destruct m as [[ev e]|] eqn:Hsw end;
      cbn; [| discriminate].
    intros H. injection H as H.
    exact (wrapInvalid_invalid ev e o err (upgradeMultilineEvent_not_invalid_origin _ _ _ _ Hsw) H).
  - intros t o err. unfold generateStatus3Event, LatestStatus3, sendCommand.
    pose proof (readCommandResponsePayload_err (replyLane t)) as Hend.
    destruct (writeErr t) as [we|]; cbn.
    + intros H. injection H as <- <-. split; [eexists; reflexivity |].
      split; [intros _; left; discriminate | reflexivity].
    + destruct (readCommandResponsePayload (replyLane t)) as [payload [re|]]; cbn in *.
      * intros H. injection H as <- <-. split; [eexists; reflexivity |].
        split; [intros _; right; intros Hin; apply Hend in Hin; discriminate | reflexivity].
      * destruct (NewStatus3Event payload) as [[s [se|]]|]; cbn; [| discriminate | discriminate].
        intros H. injection H as <- <-. split; [eexists; reflexivity |].
        split; [discriminate |]. intros [Hw | Hin]; [congruence | exfalso; apply Hin, Hend; reflexivity].
Qed.

Lemma C3_witness :
  (exists o err, upgradeEvent "BYTECOUNT" "1,2,3" = Some (EvInvalid o err) /\
     is_Some o /\ is_Some err) /\
  (generateStatus3Event {| writeErr := None; replyLane := ["TITLE"] |}
   = Some (EvInvalid None (Some (ErrorString "connection closed before END recieved"))) /\
   is_Some (Some (ErrorString "connection closed before END recieved")) /\
   (@None Event = None <->
    writeErr {| writeErr := None; replyLane := ["TITLE"] |} <> None
    \/ ~ In endMessage (replyLane {| writeErr := None; replyLane := ["TITLE"] |}))).
Proof.
  split.
  - do 2 eexists. split; [vm_compute; reflexivity |].
    apply (proj1 C3_invalid_origin_and_error "BYTECOUNT" "1,2,3"). vm_compute. reflexivity.
  - split; [vm_compute; reflexivity |].
    apply (proj2 (proj2 C3_invalid_origin_and_error)). vm_compute. reflexivity.
Defined.

(** C3 counterexample: the reply lane closes before any reply to
    'status 3'; the poller sends an InvalidEvent whose origin is nil. *)
Lemma C3_counterexample :
  generateStatus3Event {| writeErr := None; replyLane := [] |}
  = Some (EvInvalid None (Some (ErrorString "connection closed before END recieved"))).
Proof. vm_compute. reflexivity. Qed.

(** C4 (code_bug). SetVerbosityLevel issues 'verb <level>' for levels 1 to
    15 and rejects every other level before any write, returning its error
    directly. Level 0, which the doc comment and the error text both name as
    valid, is rejected. *)
Theorem C4_verbosity_range :
  (forall level t, (1 <= level <= 15)%Z ->
     fst (SetVerbosityLevel level t) = [("verb " ++ Itoa level) ++ newlineSep]) /\
  (forall level t, ~ (1 <= level <= 15)%Z ->
     SetVerbosityLevel level t =
     ([], Some (ErrorString ("bad verbosity level '" ++ Itoa level ++ "', should be from 0 to 15")))) /\
  (forall t, SetVerbosityLevel 0 t =
     ([], Some (ErrorString "bad verbosity level '0', should be from 0 to 15"))).
Proof.
  split; [| split].
  - intros level t Hr. unfold SetVerbosityLevel, simpleCommand, sendCommand.
    replace ((0 <? level)%Z && (level <? 16)%Z) with true
      by (symmetry; apply andb_true_iff; split; apply Z.ltb_lt; lia).
    destruct (writeErr t); [reflexivity |].
    destruct (readCommandResult (replyLane t)); reflexivity.
  - intros level t Hr. unfold SetVerbosityLevel.
    destruct (Z.ltb_spec 0 level); destruct (Z.ltb_spec level 16); cbn; try reflexivity; lia.
  - intros t. reflexivity.
Qed.

Lemma C4_witness :
  fst (SetVerbosityLevel 5 {| writeErr := None; replyLane := ["SUCCESS: verb=5"] |})
    = [("verb " ++ Itoa 5) ++ newlineSep] /\
  SetVerbosityLevel 16 {| writeErr := None; replyLane := [] |}
    = ([], Some (ErrorString ("bad verbosity level '" ++ Itoa 16 ++ "', should be from 0 to 15"))).
Proof.
  split.
  - apply (proj1 C4_verbosity_range). lia.
  - apply (proj1 (proj2 C4_verbosity_range)). lia.
Defined.

(** C5 (code bug). When a single-line event arrives while a buffer is
    open, the scanner sends the new single-line event first and the flushed
    buffer after it, then returns to idle; on the lane CLIENT:CONNECT,7,2
    then HOLD:x the HOLD event is delivered before the buffered CONNECT
    event, against the flush-first order of the claim. *)
Theorem C5_single_line_then_flush :
  (forall st raw keyword body e f,
     splitEvent raw = (emSingleLine, keyword, body) ->
     (buf st <> [] \/ bufKW st <> "") ->
     upgradeEvent keyword body = Some e ->
     flushMultilineBuf st = Some f ->
     scanStep st raw = Some ([e; f], scanIdle)) /\
  eventScanner ["CLIENT:CONNECT,7,2"; "HOLD:x"]
  = Some [Deliver (EvHold {| hold_body := "x" |}); Deliver (EvClient connectEvent); CloseSink].
Proof.
  split; [| vm_compute; reflexivity].
  intros st raw keyword body e f Hsplit Hopen He Hf. unfold scanStep. rewrite Hsplit.
  cbn [String.eqb emSingleLine].
  rewrite He. cbn [mbind option_bind].
  replace (negb (Nat.eqb (length (buf st)) 0) || negb (String.eqb (bufKW st) "")) with true.
  - now rewrite Hf.
  - symmetry. apply orb_true_iff. destruct Hopen as [Hb | Hk].
    + left. destruct (buf st); [congruence | reflexivity].
    + right. apply negb_true_iff, String.eqb_neq. exact Hk.
Qed.

Lemma C5_witness :
  scanStep {| bufKW := clientEventKW; buf := ["CONNECT,7,2"] |} "HOLD:x"
  = Some ([EvHold {| hold_body := "x" |}; EvClient connectEvent], scanIdle).
Proof.
  apply (proj1 C5_single_line_then_flush) with (keyword := "HOLD") (body := "x").
  - reflexivity.
  - left. discriminate.
  - reflexivity.
  - vm_compute. reflexivity.
Defined.

(** C6 (confirmed). On every run of the scanner from its idle start, a
    multi-line line never meets a buffer open under a different keyword: the
    buffer is empty or has the line's keyword (only CLIENT lines are
    multi-line framed), and the line is appended to the buffer of its
    keyword, so it is buffered toward a multi-line event and nothing is
    dropped. The mismatch branch itself, in a state no run reaches, flushes
    the buffer and sends the new line at once, also dropping neither. *)
Theorem C6_keyword_mismatch :
  (forall lines es st raw em keyword body,
     scanLines scanIdle lines = Some (es, st) ->
     splitEvent raw = (em, keyword, body) -> em <> emSingleLine -> raw <> em ->
     (bufKW st = "" \/ bufKW st = keyword) /\
     scanStep st raw = Some ([], {| bufKW := keyword; buf := (buf st ++ [body])%list |})) /\
  (forall st raw em keyword body f e,
     splitEvent raw = (em, keyword, body) -> em <> emSingleLine -> raw <> em ->
     bufKW st <> "" -> bufKW st <> keyword ->
     flushMultilineBuf st = Some f -> upgradeEvent keyword body = Some e ->
     scanStep st raw = Some ([f; e], scanIdle)).
Proof.
  split.
  - intros lines es st raw em keyword body Hl Hs Hem Hraw.
    destruct (scanLines_inv scanIdle lines scan_inv_idle) as (es' & st' & Hl' & Hinv).
    rewrite Hl in Hl'. injection Hl' as <- <-.
    destruct (splitEvent_multiline raw em keyword body Hs Hem) as [_ ->].
    unfold scanStep. rewrite Hs.
    rewrite (proj2 (String.eqb_neq em emSingleLine) Hem).
    rewrite (proj2 (String.eqb_neq raw em) Hraw).
    destruct Hinv as [[Hk _] | [Hk _]].
    + split; [left; exact Hk |]. rewrite Hk. reflexivity.
    + split; [right; exact Hk |]. rewrite Hk. destruct st as [kw b]. cbn in Hk |- *.
      subst kw. reflexivity.
  - intros st raw em keyword body f e Hs Hem Hraw Hkw Hne Hf He.
    unfold scanStep. rewrite Hs.
    rewrite (proj2 (String.eqb_neq em emSingleLine) Hem).
    rewrite (proj2 (String.eqb_neq raw em) Hraw).
    rewrite (proj2 (String.eqb_neq (bufKW st) "") Hkw).
    rewrite (proj2 (String.eqb_neq (bufKW st) keyword) Hne). cbn [negb].
    rewrite Hf. cbn [mbind option_bind]. now rewrite He.
Qed.

Lemma C6_witness :
  ((bufKW {| bufKW := clientEventKW; buf := ["CONNECT,7,2"] |} = ""
    \/ bufKW {| bufKW := clientEventKW; buf := ["CONNECT,7,2"] |} = clientEventKW) /\
   scanStep {| bufKW := clientEventKW; buf := ["CONNECT,7,2"] |} "CLIENT:ENV,a=b"
   = Some ([], {| bufKW := clientEventKW;
                  buf := (buf {| bufKW := clientEventKW; buf := ["CONNECT,7,2"] |}
                          ++ ["ENV,a=b"])%list |})) /\
  scanStep {| bufKW := "FOO"; buf := ["x"] |} "CLIENT:ENV,a=b"
  = Some ([EvUnknown {| unknown_keyword := "FOO"; unknown_body := "x" |}; envUnknownEvent],
          scanIdle).
Proof.
  split.
  - apply (proj1 C6_keyword_mismatch) with (lines := ["CLIENT:CONNECT,7,2"]) (es := [])
      (em := emClient).
    + vm_compute. reflexivity.
    + reflexivity.
    + discriminate.
    + vm_compute. discriminate.
  - apply (proj2 C6_keyword_mismatch) with (em := emClient) (keyword := clientEventKW)
      (body := "ENV,a=b").
    + reflexivity.
    + discriminate.
    + vm_compute. discriminate.
    + discriminate.
    + discriminate.
    + vm_compute. reflexivity.
    + vm_compute. reflexivity.
Defined.




(** C8 (corrected). A line without the ':' separator yields a Malformed
    event whose Raw() is the whole line. Every line that starts with ':'
    also yields a Malformed event, but its Raw() is the line without that
    first ':'. These are the only two ways a raw line becomes Malformed. *)
Theorem C8_malformed_raw :
  (forall line, Index line eventSep = None ->
     eventOfLine line = Some (EvMalformed (NewMalformedEvent line))) /\
  (forall rest, eventOfLine (String ":" rest) = Some (EvMalformed (NewMalformedEvent rest))) /\
  (forall line e, eventOfLine line = Some (EvMalformed e) ->
     (Index line eventSep = None /\ MalformedEvent_Raw e = line) \/
     (exists rest, line = String ":" rest /\ MalformedEvent_Raw e = rest)).
Proof.
  split; [| split].
  - intros line Hi. unfold eventOfLine, splitEvent. rewrite Hi. reflexivity.
  - intros rest. unfold eventOfLine, splitEvent, Index, eventSep.
    replace (String.index 0 ":" (String ":" rest)) with (Some 0) by (destruct rest; reflexivity).
    unfold slice_to, slice_from. cbn [String.substring String.length Nat.sub Nat.add].
    rewrite Nat.sub_0_r, substring_0_length. reflexivity.
  - intros line e. unfold eventOfLine, splitEvent.
    destruct (Index line eventSep) as [i|] eqn:Hi.
    + set (kw := slice_to line i). set (body := slice_from line (i + 1)).
      destruct (_ && _); cbn beta iota; intros H;
        apply upgradeEvent_malformed in H as [Hkw0 ->]; right;
        (destruct i as [|i];
         [ destruct (index_colon_0 line Hi) as [rest ->]; exists rest; split; [reflexivity |];
           unfold body, slice_from, MalformedEvent_Raw; cbn;
           now rewrite Nat.sub_0_r, substring_0_length
         | unfold kw, slice_to in Hkw0; destruct line; [discriminate Hi | discriminate Hkw0] ]).
    + intros H. injection H as <-. left. split; reflexivity.
Qed.

Lemma C8_witness :
  eventOfLine "no separator here" = Some (EvMalformed (NewMalformedEvent "no separator here")) /\
  eventOfLine (String ":" "foo") = Some (EvMalformed (NewMalformedEvent "foo")) /\
  ((Index ":foo" eventSep = None /\ MalformedEvent_Raw (NewMalformedEvent "foo") = ":foo") \/
   (exists rest, ":foo" = String ":" rest /\ MalformedEvent_Raw (NewMalformedEvent "foo") = rest)).
Proof.
  split; [| split].
  - apply (proj1 C8_malformed_raw). reflexivity.
  - apply (proj1 (proj2 C8_malformed_raw)).
  - apply (proj2 (proj2 C8_malformed_raw)). reflexivity.
Defined.

(** C8 counterexample: the line ':foo' yields a Malformed event with
    Raw() = 'foo'. *)
Lemma C8_counterexample :
  eventOfLine ":foo" = Some (EvMalformed (NewMalformedEvent "foo")) /\
  MalformedEvent_Raw (NewMalformedEvent "foo") <> ":foo".
Proof. split; [reflexivity | discriminate]. Qed.

(** C9 (confirmed). 'BYTECOUNT:123,456' becomes ByteCount{in:123,
    out:456}. 'BYTECOUNT:1,2,3' is split into exactly two fields, '1' and
    '2,3'; it becomes an InvalidEvent whose origin ByteCount has BytesIn()
    = 1 and whose error is the ParseInt failure on '2,3'. *)
Theorem C9_bytecount_examples :
  eventOfLine "BYTECOUNT:123,456"
    = Some (EvByteCount {| bc_body := "123,456"; bc_bytesIn := 123; bc_bytesOut := 456 |}) /\
  stringsSplitNK "1,2,3" fieldSep 2 2 = ["1"; "2,3"] /\
  eventOfLine "BYTECOUNT:1,2,3"
    = Some (EvInvalid
              (Some (EvByteCount {| bc_body := "1,2,3"; bc_bytesIn := 1; bc_bytesOut := 0 |}))
              (Some (NumError "ParseInt" "2,3" ErrSyntax))).
Proof. split; [| split]; vm_compute; reflexivity. Qed.

(** C10 (confirmed). splitEvent frames a CLIENT line as multi-line exactly
    when its body starts with CONNECT, REAUTH, ESTABLISHED, DISCONNECT or
    ENV, and as single-line otherwise; a single-line line arriving at the
    idle scanner is sent at once as its upgraded event and the scanner stays
    idle, so it never enters the buffer. *)
Theorem C10_client_framing :
  (forall line em keyword body,
     splitEvent line = (em, keyword, body) -> keyword = clientEventKW ->
     (em = emClient <-> clientMultilinePrefix body = true) /\
     (em = emSingleLine <-> clientMultilinePrefix body = false)) /\
  (forall line keyword body e,
     splitEvent line = (emSingleLine, keyword, body) -> upgradeEvent keyword body = Some e ->
     scanStep scanIdle line = Some ([e], scanIdle)).
Proof.
  assert (Hne : emSingleLine <> emClient) by (intros Heq; vm_compute in Heq; discriminate Heq).
  split.
  - intros line em keyword body H Hkw. unfold splitEvent in H.
    destruct (Index line eventSep) as [i|].
    + destruct (String.eqb_spec (slice_to line i) clientEventKW) as [Hk | Hk];
        cbn [andb] in H.
      * change (HasPrefix (slice_from line (i + 1)) (ClientEventNotification_string CEConnect)
                || HasPrefix (slice_from line (i + 1)) (ClientEventNotification_string CEReauth)
                || HasPrefix (slice_from line (i + 1)) (ClientEventNotification_string CEEstablished)
                || HasPrefix (slice_from line (i + 1)) (ClientEventNotification_string CEDisconnect)
                || HasPrefix (slice_from line (i + 1)) clientEnvMarker)
          with (clientMultilinePrefix (slice_from line (i + 1))) in H.
        destruct (clientMultilinePrefix (slice_from line (i + 1))) eqn:Hp;
          injection H as <- <- <-; rewrite Hp.
        -- split; split; intros; congruence.
        -- split; split; intros; congruence.
      * injection H as _ <- _. contradiction.
    + injection H as _ <- _. discriminate Hkw.
  - intros line keyword body e Hs He. unfold scanStep. rewrite Hs.
    cbn [String.eqb emSingleLine]. rewrite He. reflexivity.
Qed.

Lemma C10_witness :
  ((emSingleLine = emClient <-> clientMultilinePrefix "ADDRESS,1,10.0.0.1,1" = true) /\
   (emSingleLine = emSingleLine <-> clientMultilinePrefix "ADDRESS,1,10.0.0.1,1" = false)) /\
  scanStep scanIdle "CLIENT:ADDRESS,1,10.0.0.1,1"
  = Some ([EvClient {| rawHeader := "ADDRESS,1,10.0.0.1,1"; ceType := CEAddress; ce_cid := 1;
                       ce_kid := 0; ce_addr := "10.0.0.1"; isAddrPri := true; envs := ∅ |}],
          scanIdle).
Proof.
  split.
  - apply ((proj1 C10_client_framing) "CLIENT:ADDRESS,1,10.0.0.1,1" emSingleLine clientEventKW).
    + vm_compute. reflexivity.
    + reflexivity.
  - apply ((proj2 C10_client_framing) _ clientEventKW "ADDRESS,1,10.0.0.1,1").
    + vm_compute. reflexivity.
    + vm_compute. reflexivity.
Defined.

(** * Further properties of the code *)

(** X1: stringsSplitNK(s, sep, n, k) with n > 0 and k >= 0 returns at least k
    parts and at most max(n, k) parts. *)
Theorem stringsSplitNK_part_count (s sep : string) (n k : Z) :
  (0 < n)%Z -> (0 <= k)%Z ->
  Z.to_nat k <= length (stringsSplitNK s sep n k) <= Nat.max (Z.to_nat n) (Z.to_nat k).
Proof.
  intros Hn Hk. rewrite stringsSplitNK_pad by exact Hk.
  rewrite length_app, length_replicate, SplitN_pos by exact Hn.
  pose proof (genSplit_length s sep (Z.to_nat n)). lia.
Qed.

Lemma stringsSplitNK_part_count_witness :
  (0 < 3)%Z /\ (0 <= 3)%Z /\
  Z.to_nat 3 <= length (stringsSplitNK "a,b" "," 3 3) <= Nat.max (Z.to_nat 3) (Z.to_nat 3).
Proof.
  split; [lia | split; [lia |]]. apply (stringsSplitNK_part_count "a,b" "," 3 3); lia.
Defined.

(** X2: for a LOG body ts,flags,msg whose timestamp and flags hold no comma,
    NewLogEvent reads the timestamp with ParseInt (and returns its error),
    RawFlags() is flags, Message() is msg (commas included) and String() is
    LOG[flags]: msg. *)
Theorem NewLogEvent_fields (ts flags msg : string) :
  Index ts fieldSep = None -> Index flags fieldSep = None ->
  exists e err,
    NewLogEvent (ts ++ fieldSep ++ flags ++ fieldSep ++ msg) = Some (e, err) /\
    ParseInt ts = (log_ts e, err) /\
    LogEvent_RawFlags e = Some flags /\ LogEvent_Message e = Some msg /\
    LogEvent_String e = Some ("LOG[" ++ flags ++ "]: " ++ msg).
Proof.
  intros Hts Hfl. unfold NewLogEvent. unfold fieldSep in *.
  rewrite stringsSplitNK_3 by assumption. cbn [lookup list_lookup mbind option_bind].
  destruct (ParseInt ts) as [t err]. do 2 eexists. repeat split; reflexivity.
Qed.

Lemma NewLogEvent_fields_witness :
  Index "1700000000" fieldSep = None /\ Index "I" fieldSep = None /\
  exists e err,
    NewLogEvent ("1700000000" ++ fieldSep ++ "I" ++ fieldSep ++ "a,b") = Some (e, err) /\
    ParseInt "1700000000" = (log_ts e, err) /\
    LogEvent_RawFlags e = Some "I" /\ LogEvent_Message e = Some "a,b" /\
    LogEvent_String e = Some ("LOG[" ++ "I" ++ "]: " ++ "a,b").
Proof.
  split; [reflexivity | split; [reflexivity |]].
  apply (NewLogEvent_fields "1700000000" "I" "a,b"); reflexivity.
Defined.

(** X3: a LOG body without a comma is read whole as the timestamp, and
    RawFlags() and Message() are empty instead of panicking. *)
Theorem NewLogEvent_no_comma (body : string) :
  Index body fieldSep = None ->
  exists e err,
    NewLogEvent body = Some (e, err) /\ ParseInt body = (log_ts e, err) /\
    LogEvent_RawFlags e = Some "" /\ LogEvent_Message e = Some "".
Proof.
  intros Hb. unfold NewLogEvent, fieldSep in *.
  rewrite stringsSplitNK_pad, SplitN_pos by lia. change (Z.to_nat 3) with 3.
  rewrite genSplit_none by exact Hb. cbn [lookup list_lookup mbind option_bind length replicate app].
  destruct (ParseInt body) as [t err]. do 2 eexists. repeat split; reflexivity.
Qed.

Lemma NewLogEvent_no_comma_witness :
  Index "1700000000" fieldSep = None /\
  exists e err,
    NewLogEvent "1700000000" = Some (e, err) /\ ParseInt "1700000000" = (log_ts e, err) /\
    LogEvent_RawFlags e = Some "" /\ LogEvent_Message e = Some "".
Proof. split; [reflexivity |]. apply (NewLogEvent_no_comma "1700000000"). reflexivity. Defined.

(** X4: for a STATE body made of comma-free fields f0,f1,..., NewStateEvent
    reads f0 with ParseInt, and Name(), Description(), LocalTunnelAddr() and
    RemoteAddr() are f1 to f4, or empty when the body has fewer fields. *)
Theorem NewStateEvent_fields (fs : list string) :
  fs <> [] -> Forall (fun f => Index f fieldSep = None) fs ->
  exists e err,
    NewStateEvent (Join fs fieldSep) = Some (e, err) /\
    ParseInt (default "" (fs !! 0)) = (state_ts e, err) /\
    StateEvent_Name e = Some (default "" (fs !! 1)) /\
    StateEvent_Description e = Some (default "" (fs !! 2)) /\
    StateEvent_LocalTunnelAddr e = Some (default "" (fs !! 3)) /\
    StateEvent_RemoteAddr e = Some (default "" (fs !! 4)).
Proof.
  intros Hne Hall. unfold NewStateEvent, StateEvent_Name, StateEvent_Description,
    StateEvent_LocalTunnelAddr, StateEvent_RemoteAddr.
  unfold fieldSep in *. rewrite stringsSplitNK_Join by (assumption || lia).
  change (Z.to_nat 9) with 9. change (Z.to_nat 5) with 5. change (9 - 1) with 8.
  cbv zeta. rewrite (padded_state_lookup _ fs 0) by lia. cbn [mbind option_bind].
  destruct (ParseInt (default "" (fs !! 0))) as [t err]. do 2 eexists.
  split; [reflexivity|]. split; [reflexivity|]. cbn [state_bodyParts].
  repeat split; apply padded_state_lookup; lia.
Qed.

Lemma NewStateEvent_fields_witness :
  ["1700000000"; "CONNECTED"; "SUCCESS"] <> [] /\
  Forall (fun f => Index f fieldSep = None) ["1700000000"; "CONNECTED"; "SUCCESS"] /\
  exists e err,
    NewStateEvent (Join ["1700000000"; "CONNECTED"; "SUCCESS"] fieldSep) = Some (e, err) /\
    ParseInt (default "" (["1700000000"; "CONNECTED"; "SUCCESS"] !! 0)) = (state_ts e, err) /\
    StateEvent_Name e = Some (default "" (["1700000000"; "CONNECTED"; "SUCCESS"] !! 1)) /\
    StateEvent_Description e = Some (default "" (["1700000000"; "CONNECTED"; "SUCCESS"] !! 2)) /\
    StateEvent_LocalTunnelAddr e = Some (default "" (["1700000000"; "CONNECTED"; "SUCCESS"] !! 3)) /\
    StateEvent_RemoteAddr e = Some (default "" (["1700000000"; "CONNECTED"; "SUCCESS"] !! 4)).
Proof.
  split; [discriminate | split; [repeat constructor |]].
  apply (NewStateEvent_fields ["1700000000"; "CONNECTED"; "SUCCESS"]);
    [discriminate | repeat constructor].
Defined.

(** X5: for an ECHO body ts,msg with a comma-free timestamp, NewEchoEvent
    reads ts with ParseInt, Message() is msg and String() is ECHO: msg. *)
Theorem NewEchoEvent_fields (ts msg : string) :
  Index ts fieldSep = None ->
  let '(e, err) := NewEchoEvent (ts ++ fieldSep ++ msg) in
  ParseInt ts = (echo_ts e, err) /\ EchoEvent_Message e = msg /\
  EchoEvent_String e = "ECHO: " ++ msg.
Proof.
  intros Hts. unfold NewEchoEvent. unfold fieldSep in *.
  rewrite sep_app, index_sep_app by exact Hts.
  rewrite slice_from_app_sep, slice_to_app.
  destruct (ParseInt ts) as [t err]. repeat split; reflexivity.
Qed.

Lemma NewEchoEvent_fields_witness :
  Index "1700000000" fieldSep = None /\
  let '(e, err) := NewEchoEvent ("1700000000" ++ fieldSep ++ "hi,there") in
  ParseInt "1700000000" = (echo_ts e, err) /\ EchoEvent_Message e = "hi,there" /\
  EchoEvent_String e = "ECHO: " ++ "hi,there".
Proof. split; [reflexivity |]. apply (NewEchoEvent_fields "1700000000" "hi,there"). reflexivity. Defined.

(** X6: BYTECOUNT and BYTECOUNT_CLI bodies written with strconv.Itoa from
    int64 values are read back without error: the counters and the client
    id are the values written. *)
Theorem NewByteCount_Itoa (cid bytesIn bytesOut : Z) :
  int64_range cid -> int64_range bytesIn -> int64_range bytesOut ->
  (exists e, NewByteCountEvent (Itoa bytesIn ++ fieldSep ++ Itoa bytesOut) = Some (e, None) /\
             bc_bytesIn e = bytesIn /\ bc_bytesOut e = bytesOut) /\
  (exists e, NewByteCountClientEvent
               (Itoa cid ++ fieldSep ++ Itoa bytesIn ++ fieldSep ++ Itoa bytesOut) = Some (e, None) /\
             bcc_cid e = cid /\ bcc_bytesIn e = bytesIn /\ bcc_bytesOut e = bytesOut).
Proof.
  intros Hc Hi Ho. split.
  - unfold NewByteCountEvent. pose proof (Itoa_no_comma bytesIn) as Hn. unfold fieldSep in *.
    rewrite stringsSplitNK_2 by exact Hn. cbn [lookup list_lookup mbind option_bind].
    rewrite !ParseInt_Itoa by assumption. eexists. repeat split; reflexivity.
  - unfold NewByteCountClientEvent. pose proof (Itoa_no_comma cid) as Hn1.
    pose proof (Itoa_no_comma bytesIn) as Hn2. unfold fieldSep in *.
    rewrite stringsSplitNK_3 by assumption. cbn [lookup list_lookup mbind option_bind].
    rewrite !ParseInt_Itoa by assumption. eexists. repeat split; reflexivity.
Qed.

Lemma NewByteCount_Itoa_witness :
  int64_range 7 /\ int64_range 123 /\ int64_range 456 /\
  (exists e, NewByteCountEvent (Itoa 123 ++ fieldSep ++ Itoa 456) = Some (e, None) /\
             bc_bytesIn e = 123%Z /\ bc_bytesOut e = 456%Z) /\
  (exists e, NewByteCountClientEvent (Itoa 7 ++ fieldSep ++ Itoa 123 ++ fieldSep ++ Itoa 456)
               = Some (e, None) /\
             bcc_cid e = 7%Z /\ bcc_bytesIn e = 123%Z /\ bcc_bytesOut e = 456%Z).
Proof.
  unfold int64_range. split; [lia | split; [lia | split; [lia |]]].
  apply (NewByteCount_Itoa 7 123 456); unfold int64_range; lia.
Defined.

(** X7: whatever the payload, a ClientEvent built by NewClientEvent keeps
    the first line as its raw header; without error its type is never
    UNKNOWN; only CONNECT and REAUTH set the key id, only ADDRESS sets the
    address and the primary flag, and ADDRESS and UNKNOWN events carry no
    environment. *)
Theorem NewClientEvent_shape (payload : list string) (c : ClientEvent) (err : option error) :
  NewClientEvent payload = Some (c, err) ->
  payload !! 0 = Some (rawHeader c) /\
  (err = None -> ceType c <> CEUnknown) /\
  (ceType c <> CEConnect -> ceType c <> CEReauth -> ce_kid c = 0%Z) /\
  (ceType c <> CEAddress -> ce_addr c = "" /\ isAddrPri c = false) /\
  (ceType c = CEAddress \/ ceType c = CEUnknown -> envs c = ∅).
Proof.
  intros H. destruct payload as [|hdr rest]; [discriminate|].
  unfold NewClientEvent in H. cbn [lookup list_lookup mbind option_bind] in H.
  open_split_lookups_in H.
  match type of H with context [parseNotification ?q] =>
    pose proof (parseNotification_known q);
    revert H; destruct (parseNotification q) as [t|]; [destruct t|]; intros H end;
    repeat first [ progress open_split_lookups_in H | progress simplify_eq/=
                 | progress (unfold mbind, option_bind in H) | case_match ];
    cbn; repeat split; intros; repeat match goal with Hd : _ \/ _ |- _ => destruct Hd end; try congruence.
Qed.

Lemma NewClientEvent_shape_witness :
  NewClientEvent ["ADDRESS,1,10.0.0.1,1"] =
    Some ({| rawHeader := "ADDRESS,1,10.0.0.1,1"; ceType := CEAddress; ce_cid := 1;
             ce_kid := 0; ce_addr := "10.0.0.1"; isAddrPri := true; envs := ∅ |}, None) /\
  let c := {| rawHeader := "ADDRESS,1,10.0.0.1,1"; ceType := CEAddress; ce_cid := 1;
              ce_kid := 0; ce_addr := "10.0.0.1"; isAddrPri := true; envs := ∅ |} in
  ["ADDRESS,1,10.0.0.1,1"] !! 0 = Some (rawHeader c) /\
  (@None error = None -> ceType c <> CEUnknown) /\
  (ceType c <> CEConnect -> ceType c <> CEReauth -> ce_kid c = 0%Z) /\
  (ceType c <> CEAddress -> ce_addr c = "" /\ isAddrPri c = false) /\
  (ceType c = CEAddress \/ ceType c = CEUnknown -> envs c = ∅).
Proof.
  split; [vm_compute; reflexivity |].
  apply (NewClientEvent_shape ["ADDRESS,1,10.0.0.1,1"]). vm_compute. reflexivity.
Defined.

(** X8: the ENV loop of NewClientEvent over lines ENV,k=v (keys without
    '=') assigns the pairs in order, a later key overriding an earlier one,
    and carries on with the lines that follow; a following line without the
    ENV, prefix stops the loop with an error naming that line, and a line
    ENV,k without '=' assigns the empty value to k. *)
Theorem clientEnvLoop_lines (kvs : list (string * string)) (rest : list string)
    (m : gmap string string) :
  Forall (fun kv => Index kv.1 clientEnvKVSep = None) kvs ->
  clientEnvLoop (map envLine kvs ++ rest) m = clientEnvLoop rest (envsOf kvs m) /\
  (forall line, HasPrefix line (clientEnvMarker ++ fieldSep) = false ->
     clientEnvLoop (map envLine kvs ++ line :: rest) m =
     Some (envsOf kvs m, Some (ErrorString ("no env prefix in client event line: " ++ line)))) /\
  (forall kv, Index kv clientEnvKVSep = None ->
     clientEnvLoop (map envLine kvs ++ (clientEnvMarker ++ fieldSep ++ kv) :: rest) m =
     clientEnvLoop rest (<[kv := ""]> (envsOf kvs m))).
Proof.
  intros Hall. split; [|split].
  - apply clientEnvLoop_envLines, Hall.
  - intros line Hl. rewrite clientEnvLoop_envLines by exact Hall.
    cbn [clientEnvLoop]. rewrite Hl. reflexivity.
  - intros kv Hkv. rewrite clientEnvLoop_envLines by exact Hall.
    cbn [clientEnvLoop]. rewrite (str_app_assoc clientEnvMarker fieldSep).
    unfold HasPrefix. rewrite str_prefix_app. cbn [negb].
    rewrite slice_from_app.
    assert (Hs : stringsSplitNK kv clientEnvKVSep 2 2 = [kv; ""]).
    { unfold stringsSplitNK. rewrite SplitN_pos by lia. change (Z.to_nat 2) with 2.
      unfold clientEnvKVSep in *. rewrite genSplit_none by exact Hkv. reflexivity. }
    rewrite Hs. reflexivity.
Qed.

Lemma clientEnvLoop_lines_witness :
  Forall (fun kv => Index kv.1 clientEnvKVSep = None) [("a", "b"); ("a", "c=d")] /\
  (clientEnvLoop (map envLine [("a", "b"); ("a", "c=d")] ++ []) ∅ =
     clientEnvLoop [] (envsOf [("a", "b"); ("a", "c=d")] ∅) /\
   (forall line, HasPrefix line (clientEnvMarker ++ fieldSep) = false ->
      clientEnvLoop (map envLine [("a", "b"); ("a", "c=d")] ++ line :: []) ∅ =
      Some (envsOf [("a", "b"); ("a", "c=d")] ∅,
            Some (ErrorString ("no env prefix in client event line: " ++ line)))) /\
   (forall kv, Index kv clientEnvKVSep = None ->
      clientEnvLoop (map envLine [("a", "b"); ("a", "c=d")] ++
                     (clientEnvMarker ++ fieldSep ++ kv) :: []) ∅ =
      clientEnvLoop [] (<[kv := ""]> (envsOf [("a", "b"); ("a", "c=d")] ∅)))).
Proof.
  split; [repeat constructor |].
  apply (clientEnvLoop_lines [("a", "b"); ("a", "c=d")] [] ∅). repeat constructor.
Defined.

(** X9: a CONNECT or REAUTH notification whose header is the type, the
    client id and the key id written by strconv.Itoa, followed by ENV lines,
    gives a ClientEvent of that type with these ids, the header as raw text,
    the environment the ENV lines assign, and no error. *)
Theorem NewClientEvent_connect_envs (t : ClientEventNotification) (cid kid : Z)
    (kvs : list (string * string)) :
  t = CEConnect \/ t = CEReauth -> int64_range cid -> int64_range kid ->
  Forall (fun kv => Index kv.1 clientEnvKVSep = None) kvs ->
  let hdr := ClientEventNotification_string t ++ fieldSep ++ Itoa cid ++ fieldSep ++ Itoa kid in
  NewClientEvent (hdr :: map envLine kvs) =
  Some (mkClientEvent hdr t cid kid "" false (envsOf kvs ∅), None).
Proof.
  intros Ht Hc Hk Hall hdr. unfold hdr, NewClientEvent.
  cbn [lookup list_lookup mbind option_bind].
  rewrite stringsSplitNK_fields3 by (apply Itoa_no_comma || (destruct Ht; subst; reflexivity)).
  cbn [lookup list_lookup mbind option_bind].
  rewrite ParseInt_Itoa by exact Hc.
  destruct Ht; subst; cbn; rewrite ParseInt_Itoa by exact Hk; cbn;
    rewrite drop_0, <- (app_nil_r (map envLine kvs)), clientEnvLoop_envLines by exact Hall;
    reflexivity.
Qed.

Lemma NewClientEvent_connect_envs_witness :
  (CEConnect = CEConnect \/ CEConnect = CEReauth) /\ int64_range 7 /\ int64_range 2 /\
  Forall (fun kv => Index kv.1 clientEnvKVSep = None) [("common_name", "alice")] /\
  let hdr := ClientEventNotification_string CEConnect ++ fieldSep ++ Itoa 7 ++ fieldSep ++ Itoa 2 in
  NewClientEvent (hdr :: map envLine [("common_name", "alice")]) =
  Some (mkClientEvent hdr CEConnect 7 2 "" false (envsOf [("common_name", "alice")] ∅), None).
Proof.
  unfold int64_range. split; [left; reflexivity | split; [lia | split; [lia | split; [repeat constructor |]]]].
  apply (NewClientEvent_connect_envs CEConnect 7 2 [("common_name", "alice")]);
    [left; reflexivity | unfold int64_range; lia | unfold int64_range; lia | repeat constructor].
Defined.

(** X10: an ESTABLISHED or DISCONNECT notification whose header is the type
    and the client id written by strconv.Itoa, followed by ENV lines, gives a
    ClientEvent with that client id, key id 0, the environment the ENV lines
    assign, and no error. *)
Theorem NewClientEvent_established_envs (t : ClientEventNotification) (cid : Z)
    (kvs : list (string * string)) :
  t = CEEstablished \/ t = CEDisconnect -> int64_range cid ->
  Forall (fun kv => Index kv.1 clientEnvKVSep = None) kvs ->
  let hdr := ClientEventNotification_string t ++ fieldSep ++ Itoa cid in
  NewClientEvent (hdr :: map envLine kvs) =
  Some (mkClientEvent hdr t cid 0 "" false (envsOf kvs ∅), None).
Proof.
  intros Ht Hc Hall hdr. unfold hdr, NewClientEvent.
  cbn [lookup list_lookup mbind option_bind].
  rewrite stringsSplitNK_fields2 by (apply Itoa_no_comma || (destruct Ht; subst; reflexivity)).
  cbn [lookup list_lookup mbind option_bind].
  rewrite ParseInt_Itoa by exact Hc.
  destruct Ht; subst; cbn;
    rewrite drop_0, <- (app_nil_r (map envLine kvs)), clientEnvLoop_envLines by exact Hall;
    reflexivity.
Qed.

Lemma NewClientEvent_established_envs_witness :
  (CEDisconnect = CEEstablished \/ CEDisconnect = CEDisconnect) /\ int64_range 7 /\
  Forall (fun kv => Index kv.1 clientEnvKVSep = None) [("bytes_sent", "10")] /\
  let hdr := ClientEventNotification_string CEDisconnect ++ fieldSep ++ Itoa 7 in
  NewClientEvent (hdr :: map envLine [("bytes_sent", "10")]) =
  Some (mkClientEvent hdr CEDisconnect 7 0 "" false (envsOf [("bytes_sent", "10")] ∅), None).
Proof.
  unfold int64_range. split; [right; reflexivity | split; [lia | split; [repeat constructor |]]].
  apply (NewClientEvent_established_envs CEDisconnect 7 [("bytes_sent", "10")]);
    [right; reflexivity | unfold int64_range; lia | repeat constructor].
Defined.

(** X11: an ADDRESS notification ADDRESS,cid,addr,pri with cid written by
    strconv.Itoa and a comma-free addr gives a ClientEvent with that client
    id, key id 0, address addr and the primary flag strconv.ParseBool reads
    from pri (the rest of the header, commas included), with ParseBool's
    error; later payload lines are ignored and the environment is empty. *)
Theorem NewClientEvent_address (cid : Z) (addr pri : string) (rest : list string) :
  int64_range cid -> Index addr fieldSep = None ->
  let hdr := "ADDRESS" ++ fieldSep ++ Itoa cid ++ fieldSep ++ addr ++ fieldSep ++ pri in
  NewClientEvent (hdr :: rest) =
  Some (mkClientEvent hdr CEAddress cid 0 addr (ParseBool pri).1 ∅, (ParseBool pri).2).
Proof.
  intros Hc Ha hdr. unfold hdr, NewClientEvent.
  cbn [lookup list_lookup mbind option_bind].
  rewrite stringsSplitNK_fields4 by (apply Itoa_no_comma || assumption || reflexivity).
  cbn [lookup list_lookup mbind option_bind].
  rewrite ParseInt_Itoa by exact Hc. cbn.
  destruct (ParseBool pri). reflexivity.
Qed.

Lemma NewClientEvent_address_witness :
  int64_range 1 /\ Index "10.0.0.1" fieldSep = None /\
  let hdr := "ADDRESS" ++ fieldSep ++ Itoa 1 ++ fieldSep ++ "10.0.0.1" ++ fieldSep ++ "yes" in
  NewClientEvent (hdr :: ["ENV,a=b"]) =
  Some (mkClientEvent hdr CEAddress 1 0 "10.0.0.1" (ParseBool "yes").1 ∅, (ParseBool "yes").2).
Proof.
  unfold int64_range. split; [lia | split; [reflexivity |]].
  apply (NewClientEvent_address 1 "10.0.0.1" "yes" ["ENV,a=b"]); [unfold int64_range; lia | reflexivity].
Defined.

(** X12: readCommandResponsePayload returns the reply lines before the first
    END, without error, and ignores the lines after it; when the lane closes
    before END it returns every line it got, with the connection-closed
    error. *)
Theorem readCommandResponsePayload_END (pre post : list string) :
  Forall (fun l => l <> endMessage) pre ->
  readCommandResponsePayload (pre ++ endMessage :: post) = (pre, None) /\
  readCommandResponsePayload pre =
    (pre, Some (ErrorString "connection closed before END recieved")).
Proof. intros Hall. split; [apply rcrp_END | apply rcrp_closed]; exact Hall. Qed.


Lemma readCommandResponsePayload_END_witness :
  Forall (fun l => l <> endMessage) ["a"; "b"] /\
  readCommandResponsePayload (["a"; "b"] ++ endMessage :: ["c"]) = (["a"; "b"], None) /\
  readCommandResponsePayload ["a"; "b"] =
    (["a"; "b"], Some (ErrorString "connection closed before END recieved")).
Proof.
  assert (H : Forall (fun l => l <> endMessage) ["a"; "b"]).
  { repeat constructor; unfold endMessage; discriminate. }
  split; [exact H |]. apply (readCommandResponsePayload_END ["a"; "b"] ["c"]). exact H.
Defined.

(** X13: simpleCommand(cmd) writes exactly cmd followed by a newline, once,
    whatever happens next, and its result string is empty whenever it
    returns an error. *)
Theorem simpleCommand_writes (cmd : string) (t : Transport) :
  (simpleCommand cmd t).1 = [cmd ++ newlineSep] /\
  (forall e, (simpleCommand cmd t).2.2 = Some e -> (simpleCommand cmd t).2.1 = "").
Proof.
  unfold simpleCommand, sendCommand. destruct (writeErr t) as [e|]; cbn; [split; auto|].
  split; [reflexivity|]. unfold readCommandResult.
  destruct (replyLane t) as [|r rest]; cbn; [auto|].
  destruct (HasPrefix r successPrefix); cbn; [discriminate|].
  destruct (HasPrefix r errorPrefix); cbn; auto.
Qed.

(** X14: after a successful write, simpleCommand returns the text after
    SUCCESS: with no error, and for a reply ERROR: m the empty string with
    the OpenVPN error m; a reply lane closed before any reply gives the
    closed-connection error, and a failed write returns the write error. *)
Theorem simpleCommand_replies (cmd m : string) (rest : list string) (e : error) :
  simpleCommand cmd (Build_Transport None ((successPrefix ++ m) :: rest)) =
    ([cmd ++ newlineSep], (m, None)) /\
  simpleCommand cmd (Build_Transport None ((errorPrefix ++ m) :: rest)) =
    ([cmd ++ newlineSep], ("", Some (OVpnError m))) /\
  simpleCommand cmd (Build_Transport None []) =
    ([cmd ++ newlineSep], ("", Some (ErrorString "connection closed while awaiting result"))) /\
  simpleCommand cmd (Build_Transport (Some e) rest) = ([cmd ++ newlineSep], ("", Some e)).
Proof.
  unfold simpleCommand, sendCommand; cbn [writeErr replyLane].
  rewrite readCommandResult_success, readCommandResult_error. repeat split.
Qed.

(** X15: VerbosityLevel() reads n from the reply SUCCESS: verb=n; a
    successful reply that does not start with verb= gives level 0 with no
    error, an ERROR: m reply gives 0 with the OpenVPN error m, and a failed
    write gives 0 with the write error. *)
Theorem VerbosityLevel_replies (rest : list string) (e : error) :
  (forall n : Z, int64_range n ->
     VerbosityLevel (Build_Transport None ((successPrefix ++ "verb=" ++ Itoa n) :: rest)) = (n, None)) /\
  (forall m, HasPrefix m "verb=" = false ->
     VerbosityLevel (Build_Transport None ((successPrefix ++ m) :: rest)) = (0%Z, None)) /\
  (forall m, VerbosityLevel (Build_Transport None ((errorPrefix ++ m) :: rest)) = (0%Z, Some (OVpnError m))) /\
  VerbosityLevel (Build_Transport (Some e) rest) = (0%Z, Some e).
Proof.
  unfold VerbosityLevel, simpleCommand, sendCommand; cbn [writeErr replyLane].
  split; [| split; [| split]].
  - intros n Hn. rewrite readCommandResult_success.
    rewrite HasPrefix_app, slice_from_app, Atoi_Itoa by exact Hn. reflexivity.
  - intros m Hm. rewrite readCommandResult_success, Hm. reflexivity.
  - intros m. rewrite readCommandResult_error. reflexivity.
  - reflexivity.
Qed.

(** X16: Pid() reads n from the reply SUCCESS: pid=n; a successful reply
    without the pid= prefix gives the malformed-response error, an ERROR: m
    reply or a failed write gives that error back; the pid is 0 in every
    error case. *)
Theorem Pid_replies (rest : list string) (e : error) :
  (forall n : Z, int64_range n ->
     Pid (Build_Transport None ((successPrefix ++ "pid=" ++ Itoa n) :: rest)) = (n, None)) /\
  (forall m, HasPrefix m "pid=" = false ->
     Pid (Build_Transport None ((successPrefix ++ m) :: rest)) = (0%Z, Some PidMalformed)) /\
  (forall m, Pid (Build_Transport None ((errorPrefix ++ m) :: rest)) =
     (0%Z, Some (PidCommandError (OVpnError m)))) /\
  Pid (Build_Transport (Some e) rest) = (0%Z, Some (PidCommandError e)).
Proof.
  unfold Pid, simpleCommand, sendCommand; cbn [writeErr replyLane].
  split; [| split; [| split]].
  - intros n Hn. rewrite readCommandResult_success.
    rewrite HasPrefix_app. change 4 with (String.length "pid=").
    rewrite slice_from_app, Atoi_Itoa by exact Hn. reflexivity.
  - intros m Hm. rewrite readCommandResult_success, Hm. reflexivity.
  - intros m. rewrite readCommandResult_error. reflexivity.
  - reflexivity.
Qed.

(** X17: whenever Pid() returns an error, the pid it returns is 0. *)
Theorem Pid_error_zero (t : Transport) (pid : Z) (e : PidError) :
  Pid t = (pid, Some e) -> pid = 0%Z.
Proof.
  unfold Pid. destruct (simpleCommand "pid" t) as [w [raw [err|]]].
  - congruence.
  - destruct (HasPrefix raw "pid="); cbn; [|congruence].
    destruct (Atoi (slice_from raw 4)) as [p [e'|]]; congruence.
Qed.

Lemma Pid_error_zero_witness :
  Pid (Build_Transport None []) =
    (0%Z, Some (PidCommandError (ErrorString "connection closed while awaiting result"))) /\
  0%Z = 0%Z.
Proof.
  split; [reflexivity |].
  apply (Pid_error_zero (Build_Transport None []) 0
    (PidCommandError (ErrorString "connection closed while awaiting result"))). reflexivity.
Defined.

(** X18: LatestState() fails with the malformed-state error when the payload
    before END is not exactly one line; for a single line l it returns the
    StateEvent NewStateEvent builds from l, with its error; a lane closed
    before END or a failed write gives that error and a nil StateEvent. *)
Theorem LatestState_replies (post : list string) (e : error) :
  (forall pre, Forall (fun x => x <> endMessage) pre -> length pre <> 1 ->
     LatestState (Build_Transport None (pre ++ endMessage :: post)) =
       Some (None, Some (ErrorString "Malformed OpenVPN 'state' response"))) /\
  (forall l, l <> endMessage ->
     LatestState (Build_Transport None (l :: endMessage :: post)) =
       ('(s, err) ← NewStateEvent l; Some (Some s, err))) /\
  (forall pre, Forall (fun x => x <> endMessage) pre ->
     LatestState (Build_Transport None pre) =
       Some (None, Some (ErrorString "connection closed before END recieved"))) /\
  LatestState (Build_Transport (Some e) post) = Some (None, Some e).
Proof.
  unfold LatestState, sendCommand; cbn [writeErr replyLane].
  split; [| split; [| split]].
  - intros pre Hall Hlen. rewrite (rcrp_END pre post) by exact Hall.
    apply Nat.eqb_neq in Hlen. rewrite Hlen. reflexivity.
  - intros l Hl. change (l :: endMessage :: post) with ([l] ++ endMessage :: post)%list.
    rewrite (rcrp_END [l] post) by (constructor; [exact Hl | constructor]). reflexivity.
  - intros pre Hall. rewrite (rcrp_closed pre) by exact Hall. reflexivity.
  - reflexivity.
Qed.

(** X19: the event factory keeps the line it reads: a SimpleEvent or an
    UnknownEvent made from a line has Raw() equal to that line, and a
    HoldEvent comes only from a line HOLD:body, whose body it keeps. *)
Theorem eventOfLine_keeps_line (line : string) :
  (forall e, eventOfLine line = Some (EvSimple e) -> SimpleEvent_Raw e = line) /\
  (forall e, eventOfLine line = Some (EvUnknown e) -> UnknownEvent_Raw e = line) /\
  (forall h, eventOfLine line = Some (EvHold h) -> line = holdEventKW ++ eventSep ++ hold_body h).
Proof.
  unfold eventOfLine. destruct (splitEvent line) as [[m kw] body] eqn:Es.
  apply splitEvent_parts in Es. destruct Es as [(_ & -> & ->) | (-> & _)].
  - assert (Hm : upgradeEvent "" line = Some (EvMalformed (NewMalformedEvent line))) by reflexivity.
    rewrite Hm. split; [|split]; intros; discriminate.
  - split; [|split]; intros x Hx; apply upgradeEvent_kept in Hx as (K1 & K2 & K3).
    + rewrite (K1 x eq_refl). reflexivity.
    + rewrite (K2 x eq_refl). reflexivity.
    + destruct (K3 x eq_refl) as [-> ->]. reflexivity.
Qed.

(** X20: SafeParseIP4Addr and SafeParseIP6Addr never return a nil net.IP:
    both return a 16-byte address, ParseIP's when it parses the string, and
    otherwise 0.0.0.0 (in IPv4-in-IPv6 form) and :: respectively. *)
Theorem SafeParseIP_total (s : string) :
  (exists ip, SafeParseIP4Addr s = Some ip /\ length ip = 16) /\
  (exists ip, SafeParseIP6Addr s = Some ip /\ length ip = 16) /\
  (ParseIP s <> None -> SafeParseIP4Addr s = ParseIP s /\ SafeParseIP6Addr s = ParseIP s) /\
  (ParseIP s = None ->
     SafeParseIP4Addr s = Some (v4InV6Prefix ++ [0; 0; 0; 0]%Z)%list /\
     SafeParseIP6Addr s = Some (replicate 16 0%Z)).
Proof.
  unfold SafeParseIP4Addr, SafeParseIP6Addr.
  destruct (ParseIP s) as [ip|] eqn:E.
  - pose proof (ParseIP_length s ip E).
    split; [eauto|]. split; [eauto|]. split; [auto | congruence].
  - split; [eexists; split; reflexivity|]. split; [eexists; split; reflexivity|].
    split; [congruence | split; reflexivity].
Qed.

(** X21: ParseIPAddrPort returns a nil pointer exactly when it returns an
    error; on success the host part of net.SplitHostPort parses as a 16-byte
    IP, which the result carries, and the port is strconv.Atoi of the port
    part. *)
Theorem ParseIPAddrPort_result (s : string) :
  let '(p, err) := ParseIPAddrPort s in
  (p = None <-> err <> None) /\
  (forall a, p = Some a -> exists host sPort ip,
     SplitHostPort s = (host, sPort, None) /\ ParseIP host = Some ip /\
     IPAddrPort_IP a = Some ip /\ Atoi sPort = (Port a, None) /\ length ip = 16).
Proof.
  unfold ParseIPAddrPort. destruct (SplitHostPort s) as [[host sPort] [e|]] eqn:Es.
  - split; [split; congruence | discriminate].
  - unfold ParseIPAddr. destruct (ParseIP host) as [ip|] eqn:Ei;
      [|split; [split; congruence | discriminate]].
    destruct (Atoi sPort) as [port [e|]] eqn:Ea; [split; [split; congruence | discriminate]|].
    split; [split; congruence|]. intros a Ha. injection Ha as <-.
    exists host, sPort, ip. cbn. repeat split; auto. apply (ParseIP_length host), Ei.
Qed.

(** X22: in a 'status 3' payload, a TITLE line sets the snapshot's title to
    everything after TITLE and the first tab (tabs included) and leaves the
    rest of the snapshot unchanged; parsing goes on with the next line. *)
Theorem status3Loop_title (x : string) (rest : list string) (se : Status3Event) :
  status3Loop ((status3TitleKW ++ status3FieldSep ++ x) :: rest) se =
  status3Loop rest (mkS3 x (rawHumanTS se) (rawTS se) (se_ts se) (clients se)
    (invalidClients se) (routes se) (invalidRoutes se) (headers se) (extra se)).
Proof.
  cbn [status3Loop]. unfold status3FieldSep. rewrite sep_app.
  rewrite Split_cons by reflexivity. cbn [lookup list_lookup mbind option_bind].
  unfold sliceFrom. cbn [length Nat.ltb Nat.leb drop mbind option_bind].
  destruct se. cbn -[Split Join]. rewrite drop_0, Join_Split. reflexivity.
Qed.

(** X23: a 'status 3' TIME line TIME, h, r (tab-separated, tab-free h and r)
    sets the human timestamp h, the raw timestamp r and its ParseInt value;
    when ParseInt fails, parsing stops there with that error and the later
    lines are ignored. A TIME line with a single field panics. *)
Theorem status3Loop_time (h r : string) (rest : list string) (se : Status3Event) :
  Index h status3FieldSep = None -> Index r status3FieldSep = None ->
  status3Loop ((status3TimeKW ++ status3FieldSep ++ h ++ status3FieldSep ++ r) :: rest) se =
    (let se' := mkS3 (title se) h r (ParseInt r).1 (clients se) (invalidClients se)
                  (routes se) (invalidRoutes se) (headers se) (extra se) in
     match (ParseInt r).2 with
     | Some e => Some (se', Some e)
     | None => status3Loop rest se'
     end) /\
  status3Loop ((status3TimeKW ++ status3FieldSep ++ h) :: rest) se = None.
Proof.
  intros Hh Hr. unfold status3FieldSep in *. rewrite !sep_app.
  cbn [status3Loop].
  rewrite !Split_cons by (reflexivity || exact Hh). rewrite !Split_none by exact Hr || exact Hh.
  cbn [lookup list_lookup mbind option_bind].
  unfold sliceFrom. cbn [length Nat.ltb Nat.leb drop mbind option_bind].
  destruct se. cbn -[ParseInt]. destruct (ParseInt r) as [ts [e|]]; split; reflexivity.
Qed.

Lemma status3Loop_time_witness :
  Index "Mon Jan 1" status3FieldSep = None /\ Index "bad" status3FieldSep = None /\
  status3Loop ((status3TimeKW ++ status3FieldSep ++ "Mon Jan 1" ++ status3FieldSep ++ "bad")
                 :: ["TITLE"]) emptyStatus3Event =
    (let se' := mkS3 (title emptyStatus3Event) "Mon Jan 1" "bad" (ParseInt "bad").1
                  (clients emptyStatus3Event) (invalidClients emptyStatus3Event)
                  (routes emptyStatus3Event) (invalidRoutes emptyStatus3Event)
                  (headers emptyStatus3Event) (extra emptyStatus3Event) in
     match (ParseInt "bad").2 with
     | Some e => Some (se', Some e)
     | None => status3Loop ["TITLE"] se'
     end) /\
  status3Loop ((status3TimeKW ++ status3FieldSep ++ "Mon Jan 1") :: ["TITLE"]) emptyStatus3Event = None.
Proof.
  split; [reflexivity | split; [reflexivity |]].
  apply (status3Loop_time "Mon Jan 1" "bad" ["TITLE"] emptyStatus3Event); reflexivity.
Defined.

(** X24: the 'status 3' loop composes over concatenated payloads: parsing
    l1 ++ l2 parses l1, and when that ends without error or panic, goes on
    with l2 from the snapshot l1 left; an error or a panic in l1 is the
    result. *)
Theorem status3Loop_app (l1 l2 : list string) (se : Status3Event) :
  status3Loop (l1 ++ l2) se =
  match status3Loop l1 se with
  | Some (se', None) => status3Loop l2 se'
  | r => r
  end.
Proof.
  revert se. induction l1 as [|line rest IH]; intros se; [reflexivity|].
  cbn [app status3Loop]. destruct se.
  destruct (Split line status3FieldSep !! 0) as [lt|]; cbn [mbind option_bind]; [|reflexivity].
  destruct (sliceFrom (Split line status3FieldSep) 1) as [lf|]; cbn [mbind option_bind]; [|reflexivity].
  repeat first
    [ progress cbn [mbind option_bind]
    | match goal with
      | |- context [if ?b then _ else _] => destruct b
      | |- context [ParseInt ?x] => destruct (ParseInt x) as [? [?|]]
      | |- context [?l !! ?i] => destruct (l !! i)
      | |- context [sliceFrom ?l ?i] => destruct (sliceFrom l i)
      | |- context [NewStatus3Client ?x] => destruct (NewStatus3Client x)
      | |- context [NewStatus3Route ?x] => destruct (NewStatus3Route x)
      end ]; try reflexivity; apply IH.
Qed.

(** X25: NewStatus3Client never panics, and its result depends only on the
    first 12 fields: further fields are ignored and missing ones read as
    empty strings. *)
Theorem NewStatus3Client_first_fields (fs : list string) :
  (exists c, NewStatus3Client fs = Some c) /\
  NewStatus3Client fs = NewStatus3Client (map (fun i => default "" (fs !! i)) (seq 0 12)).
Proof.
  unfold NewStatus3Client. cbv zeta.
  rewrite !padFields_lookup by (unfold CLHeaderMax; lia).
  cbn [mbind option_bind]. split; [|reflexivity].
  repeat case_match. eexists. reflexivity.
Qed.

(** X26: NewStatus3Route never panics, and its result depends only on the
    first 5 fields: further fields are ignored and missing ones read as
    empty strings. *)
Theorem NewStatus3Route_first_fields (fs : list string) :
  (exists c, NewStatus3Route fs = Some c) /\
  NewStatus3Route fs = NewStatus3Route (map (fun i => default "" (fs !! i)) (seq 0 5)).
Proof.
  unfold NewStatus3Route. cbv zeta.
  rewrite !padFields_lookup by (unfold RTHeaderMax; lia).
  cbn [mbind option_bind]. split; [|reflexivity].
  repeat case_match. eexists. reflexivity.
Qed.

(** X27: the parsing errors of a CLIENT_LIST row are, in field order, the
    errors of the real address (field 1, ParseIPAddrPort) and of the integer
    fields 4, 5, 7, 9 and 10 (ParseInt); no other field can make a row
    invalid. *)
Theorem NewStatus3Client_errs (fs : list string) (c : Status3Client) :
  NewStatus3Client fs = Some c ->
  client_errs c =
    omap id [(ParseIPAddrPort (default "" (fs !! 1))).2; (ParseInt (default "" (fs !! 4))).2;
             (ParseInt (default "" (fs !! 5))).2; (ParseInt (default "" (fs !! 7))).2;
             (ParseInt (default "" (fs !! 9))).2; (ParseInt (default "" (fs !! 10))).2].
Proof.
  unfold NewStatus3Client. cbv zeta.
  rewrite !padFields_lookup by (unfold CLHeaderMax; lia).
  cbn [mbind option_bind].
  repeat case_match. intros Hc. injection Hc as <-. cbn [client_errs].
  change (appendErr (appendErr (appendErr (appendErr (appendErr (appendErr [] ?a) ?b) ?c) ?d) ?e) ?f)
    with (foldl appendErr [] [a; b; c; d; e; f]).
  rewrite appendErr_omap. subst. reflexivity.
Qed.

Lemma NewStatus3Client_errs_witness :
  exists c, NewStatus3Client ["alice"; "1.2.3.4:1194"; "10.8.0.2"] = Some c /\
  client_errs c =
    omap id [(ParseIPAddrPort (default "" (["alice"; "1.2.3.4:1194"; "10.8.0.2"] !! 1))).2;
             (ParseInt (default "" (["alice"; "1.2.3.4:1194"; "10.8.0.2"] !! 4))).2;
             (ParseInt (default "" (["alice"; "1.2.3.4:1194"; "10.8.0.2"] !! 5))).2;
             (ParseInt (default "" (["alice"; "1.2.3.4:1194"; "10.8.0.2"] !! 7))).2;
             (ParseInt (default "" (["alice"; "1.2.3.4:1194"; "10.8.0.2"] !! 9))).2;
             (ParseInt (default "" (["alice"; "1.2.3.4:1194"; "10.8.0.2"] !! 10))).2].
Proof.
  eexists. split; [reflexivity |].
  apply (NewStatus3Client_errs ["alice"; "1.2.3.4:1194"; "10.8.0.2"]). reflexivity.
Defined.

(** X28: the parsing errors of a ROUTING_TABLE row are, in field order, the
    errors of the real address (field 2, ParseIPAddrPort) and of the last
    reference timestamp (field 4, ParseInt). *)
Theorem NewStatus3Route_errs (fs : list string) (c : Status3Route) :
  NewStatus3Route fs = Some c ->
  route_errs c =
    omap id [(ParseIPAddrPort (default "" (fs !! 2))).2; (ParseInt (default "" (fs !! 4))).2].
Proof.
  unfold NewStatus3Route. cbv zeta.
  rewrite !padFields_lookup by (unfold RTHeaderMax; lia).
  cbn [mbind option_bind].
  repeat case_match. intros Hc. injection Hc as <-. cbn [route_errs].
  change (appendErr (appendErr [] ?a) ?b) with (foldl appendErr [] [a; b]).
  rewrite appendErr_omap. subst. reflexivity.
Qed.

Lemma NewStatus3Route_errs_witness :
  exists c, NewStatus3Route ["10.8.0.2"; "alice"; "1.2.3.4:1194"; "Mon"; "x"] = Some c /\
  route_errs c =
    omap id [(ParseIPAddrPort (default "" (["10.8.0.2"; "alice"; "1.2.3.4:1194"; "Mon"; "x"] !! 2))).2;
             (ParseInt (default "" (["10.8.0.2"; "alice"; "1.2.3.4:1194"; "Mon"; "x"] !! 4))).2].
Proof.
  eexists. split; [reflexivity |].
  apply (NewStatus3Route_errs ["10.8.0.2"; "alice"; "1.2.3.4:1194"; "Mon"; "x"]). reflexivity.
Defined.

(** X29: on an event lane that carries single-line events and complete
    CLIENT blocks (continuation lines, then CLIENT:ENV,END) and is then
    closed, the scanner delivers exactly one event per item, in order: the
    factory's event for a single line and upgradeMultilineEvent of the
    block's bodies for a block, then closes the delivery lane. *)
Theorem eventScanner_items (items : list LaneItem) :
  forallb item_ok items = true ->
  exists evs, mapM item_event items = Some evs /\
    eventScanner (concat (map item_lines items)) = Some (map Deliver evs ++ [CloseSink])%list.
Proof.
  intros Hall. destruct (scanLines_items items Hall) as (evs & Hm & Hl).
  exists evs. split; [exact Hm|]. unfold eventScanner. rewrite Hl. reflexivity.
Qed.

Lemma eventScanner_items_witness :
  forallb item_ok [SingleLine "INFO:hello"; ClientBlock ["CONNECT,7,2"; "ENV,a=b"];
                   SingleLine "HOLD:wait"] = true /\
  exists evs,
    mapM item_event [SingleLine "INFO:hello"; ClientBlock ["CONNECT,7,2"; "ENV,a=b"];
                     SingleLine "HOLD:wait"] = Some evs /\
    eventScanner (concat (map item_lines [SingleLine "INFO:hello";
                    ClientBlock ["CONNECT,7,2"; "ENV,a=b"]; SingleLine "HOLD:wait"]))
      = Some (map Deliver evs ++ [CloseSink])%list.
Proof.
  split; [vm_compute; reflexivity |].
  apply (eventScanner_items [SingleLine "INFO:hello"; ClientBlock ["CONNECT,7,2"; "ENV,a=b"];
                             SingleLine "HOLD:wait"]). vm_compute. reflexivity.
Defined.
